(** * caffeine8: the inhibitor lifecycle controller

    A shallow embedding of the background process of caffeine8 (the
    anonymous namespace of caffeine8.cpp, [runInhibitorLoop] and the status
    reader of [showUI]), followed by the properties of the controller that
    its specification states.

    The program is single threaded and works on a handful of globals; it is
    embedded as state-passing functions over a record [World] that holds
    the globals, the part of the outside world the program acts on (the
    status file, standard output, the sequence of D-Bus and descriptor
    operations) and a ghost log of the controller operations that ran.
    Every answer of the outside world (a D-Bus reply, whether the status
    file could be opened, an allocation made by libdbus) is read from an
    oracle [Env], indexed by the number of requests made so far, so that a
    statement quantified over [Env] covers every behaviour of the
    environment. *)

From Stdlib Require Import ZArith List String Ascii Bool Lia DecimalString
  DecimalPos.
Import ListNotations.
Local Open Scope string_scope.
Local Open Scope Z_scope.

(** ** Data model *)

(** A non-null [DBusConnection *]. *)
Definition DBusConnection : Type := nat.

Inductive DBusBusType : Type :=
| DBUS_BUS_SESSION
| DBUS_BUS_SYSTEM.

(** [struct InhibitorHandles]; a null connection pointer is [None]. *)
Record InhibitorHandles : Type := mkHandles {
  sessionConnection : option DBusConnection;
  systemConnection : option DBusConnection;
  screenSaverCookie : Z;
  idleFd : Z;
  sleepFd : Z
}.

(** The two [int &] arguments that [acquireLogin1Inhibitor] and
    [releaseLogin1Fd] are called with. *)
Inductive FdRef : Type :=
| RefIdleFd
| RefSleepFd.

Inductive Signal : Type :=
| SIGTERM
| SIGINT
| SIGUSR1
| SIGUSR2
| SIGOTHER (signo : nat).

(** The method calls the program sends, with their arguments. *)
Inductive MethodCall : Type :=
| ScreenSaverInhibit (app reason : string)
| ScreenSaverUnInhibit (cookie : Z)
| Login1Inhibit (what who why mode : string).

(** What the program does to the buses and to its descriptors, in order. *)
Inductive BusAction : Type :=
| ActBusGet (ty : DBusBusType)
| ActNewMethodCall (bus object iface method : string)
| ActSend (conn : DBusConnection) (call : MethodCall)
| ActClose (fd : Z)
| ActConnectionUnref (conn : DBusConnection).

(** Ghost log: which operations of the controller ran, and what the three
    acquisitions of an attempt returned. Nothing in the program reads it. *)
Inductive Call : Type :=
| CallAcquireScreenSaver
| CallAcquireLogin1 (what : string)
| CallAttempt (screen idle sleep : bool)
| CallCleanup.

(** *** Answers of the environment *)

(** [dbus_bus_get]: the error is set, or the result is null without an
    error, or a connection is returned. *)
Inductive BusGetResult : Type :=
| BusGetError (message : string)
| BusGetNull
| BusGetOk (conn : DBusConnection).

(** [dbus_connection_send_with_reply_and_block] for ScreenSaver.Inhibit
    followed by [dbus_message_get_args]. *)
Inductive ScreenSaverReply : Type :=
| SSCallError (message : string)
| SSNullReply
| SSUnparsable (message : string)
| SSCookie (cookie : Z).

(** The same call for login1.Inhibit, followed by the inspection of the
    first argument of the reply. *)
Inductive Login1Reply : Type :=
| L1CallError (message : string)
| L1NullReply
| L1NoArguments
| L1NotUnixFd
| L1UnixFd (fd : Z).

Record Env : Type := mkEnv {
  env_pid : Z;
  (** does [std::ofstream(statusFilePath, trunc)] open the file? *)
  env_open_status : nat -> bool;
  env_bus_get : nat -> DBusBusType -> BusGetResult;
  (** does [dbus_message_new_method_call] return a message? *)
  env_new_method_call : nat -> bool;
  env_screen_saver_inhibit : nat -> ScreenSaverReply;
  env_login1_inhibit : nat -> string -> Login1Reply;
  (** the error of ScreenSaver.UnInhibit, when there is one *)
  env_screen_saver_uninhibit : nat -> option string
}.

(** *** The state *)

Record World : Type := mkWorld {
  (* globals of the anonymous namespace *)
  inhibitorHandles : InhibitorHandles;
  debugLoggingEnabled : bool;
  inhibitorsActive : bool;
  terminationRequested : bool;
  acquireRequested : bool;
  releaseRequested : bool;
  lastQbusError : string;
  (* the outside world *)
  statusFile : option string;
  stdout : list string;
  busTrace : list BusAction;
  clock : nat;
  (* ghost *)
  callLog : list Call
}.

Definition set_inhibitorHandles (h : InhibitorHandles) (w : World) : World :=
  mkWorld h (debugLoggingEnabled w) (inhibitorsActive w)
    (terminationRequested w) (acquireRequested w) (releaseRequested w)
    (lastQbusError w) (statusFile w) (stdout w) (busTrace w) (clock w)
    (callLog w).

Definition set_debugLoggingEnabled (b : bool) (w : World) : World :=
  mkWorld (inhibitorHandles w) b (inhibitorsActive w)
    (terminationRequested w) (acquireRequested w) (releaseRequested w)
    (lastQbusError w) (statusFile w) (stdout w) (busTrace w) (clock w)
    (callLog w).

Definition set_inhibitorsActive (b : bool) (w : World) : World :=
  mkWorld (inhibitorHandles w) (debugLoggingEnabled w) b
    (terminationRequested w) (acquireRequested w) (releaseRequested w)
    (lastQbusError w) (statusFile w) (stdout w) (busTrace w) (clock w)
    (callLog w).

Definition set_terminationRequested (b : bool) (w : World) : World :=
  mkWorld (inhibitorHandles w) (debugLoggingEnabled w) (inhibitorsActive w)
    b (acquireRequested w) (releaseRequested w)
    (lastQbusError w) (statusFile w) (stdout w) (busTrace w) (clock w)
    (callLog w).

Definition set_acquireRequested (b : bool) (w : World) : World :=
  mkWorld (inhibitorHandles w) (debugLoggingEnabled w) (inhibitorsActive w)
    (terminationRequested w) b (releaseRequested w)
    (lastQbusError w) (statusFile w) (stdout w) (busTrace w) (clock w)
    (callLog w).

Definition set_releaseRequested (b : bool) (w : World) : World :=
  mkWorld (inhibitorHandles w) (debugLoggingEnabled w) (inhibitorsActive w)
    (terminationRequested w) (acquireRequested w) b
    (lastQbusError w) (statusFile w) (stdout w) (busTrace w) (clock w)
    (callLog w).

Definition set_lastQbusError (s : string) (w : World) : World :=
  mkWorld (inhibitorHandles w) (debugLoggingEnabled w) (inhibitorsActive w)
    (terminationRequested w) (acquireRequested w) (releaseRequested w)
    s (statusFile w) (stdout w) (busTrace w) (clock w)
    (callLog w).

Definition set_statusFile (f : option string) (w : World) : World :=
  mkWorld (inhibitorHandles w) (debugLoggingEnabled w) (inhibitorsActive w)
    (terminationRequested w) (acquireRequested w) (releaseRequested w)
    (lastQbusError w) f (stdout w) (busTrace w) (clock w)
    (callLog w).

Definition set_stdout (l : list string) (w : World) : World :=
  mkWorld (inhibitorHandles w) (debugLoggingEnabled w) (inhibitorsActive w)
    (terminationRequested w) (acquireRequested w) (releaseRequested w)
    (lastQbusError w) (statusFile w) l (busTrace w) (clock w)
    (callLog w).

Definition set_busTrace (l : list BusAction) (w : World) : World :=
  mkWorld (inhibitorHandles w) (debugLoggingEnabled w) (inhibitorsActive w)
    (terminationRequested w) (acquireRequested w) (releaseRequested w)
    (lastQbusError w) (statusFile w) (stdout w) l (clock w)
    (callLog w).

Definition set_clock (n : nat) (w : World) : World :=
  mkWorld (inhibitorHandles w) (debugLoggingEnabled w) (inhibitorsActive w)
    (terminationRequested w) (acquireRequested w) (releaseRequested w)
    (lastQbusError w) (statusFile w) (stdout w) (busTrace w) n
    (callLog w).

Definition set_callLog (l : list Call) (w : World) : World :=
  mkWorld (inhibitorHandles w) (debugLoggingEnabled w) (inhibitorsActive w)
    (terminationRequested w) (acquireRequested w) (releaseRequested w)
    (lastQbusError w) (statusFile w) (stdout w) (busTrace w) (clock w)
    l.

Definition set_sessionConnection (c : option DBusConnection)
    (h : InhibitorHandles) : InhibitorHandles :=
  mkHandles c (systemConnection h) (screenSaverCookie h) (idleFd h) (sleepFd h).

Definition set_systemConnection (c : option DBusConnection)
    (h : InhibitorHandles) : InhibitorHandles :=
  mkHandles (sessionConnection h) c (screenSaverCookie h) (idleFd h) (sleepFd h).

Definition set_screenSaverCookie (c : Z) (h : InhibitorHandles)
    : InhibitorHandles :=
  mkHandles (sessionConnection h) (systemConnection h) c (idleFd h) (sleepFd h).

Definition set_idleFd (fd : Z) (h : InhibitorHandles) : InhibitorHandles :=
  mkHandles (sessionConnection h) (systemConnection h) (screenSaverCookie h)
    fd (sleepFd h).

Definition set_sleepFd (fd : Z) (h : InhibitorHandles) : InhibitorHandles :=
  mkHandles (sessionConnection h) (systemConnection h) (screenSaverCookie h)
    (idleFd h) fd.

Definition get_fd (r : FdRef) (h : InhibitorHandles) : Z :=
  match r with
  | RefIdleFd => idleFd h
  | RefSleepFd => sleepFd h
  end.

Definition set_fd (r : FdRef) (fd : Z) (h : InhibitorHandles)
    : InhibitorHandles :=
  match r with
  | RefIdleFd => set_idleFd fd h
  | RefSleepFd => set_sleepFd fd h
  end.

(** The globals as their initialisers leave them, with the debug flag that
    [main] passes to [setDebugMode] and whatever the status file held. *)
Definition initialHandles : InhibitorHandles :=
  mkHandles None None 0 (-1) (-1).

Definition initialWorld (debug : bool) (file : option string) : World :=
  mkWorld initialHandles debug false false false false "NONE"
    file [] [] 0%nat [].

(** ** The state monad *)

Definition M (A : Type) : Type := World -> A * World.

Definition ret {A : Type} (a : A) : M A := fun w => (a, w).

Definition bind {A B : Type} (m : M A) (k : A -> M B) : M B :=
  fun w => let (a, w') := m w in k a w'.

Definition gets {A : Type} (f : World -> A) : M A := fun w => (f w, w).

Definition modify (f : World -> World) : M unit := fun w => (tt, f w).

Declare Scope prog_scope.
Delimit Scope prog_scope with prog.
Notation "x <- m ;; k" := (bind m (fun x => k))
  (at level 61, m at next level, right associativity) : prog_scope.
Notation "m ;; k" := (bind m (fun _ => k))
  (at level 61, right associativity) : prog_scope.
Local Open Scope prog_scope.

Definition skip : M unit := ret tt.

(** One more request to the environment: its index. *)
Definition tick : M nat :=
  fun w => (clock w, set_clock (S (clock w)) w).

Definition emit (a : BusAction) : M unit :=
  modify (fun w => set_busTrace (busTrace w ++ [a]) w).

Definition print (line : string) : M unit :=
  modify (fun w => set_stdout (stdout w ++ [line]) w).

Definition note (c : Call) : M unit :=
  modify (fun w => set_callLog (callLog w ++ [c]) w).

Definition modifyHandles (f : InhibitorHandles -> InhibitorHandles) : M unit :=
  modify (fun w => set_inhibitorHandles (f (inhibitorHandles w)) w).

(** ** The program *)

Definition newline : ascii := "010"%char.
Definition carriage_return : ascii := "013"%char.
Definition nl : string := String newline EmptyString.

(** [operator<<] on an integer and [std::to_string]: decimal digits, with a
    minus sign for a negative number. *)
Definition to_string (z : Z) : string := NilZero.string_of_int (Z.to_int z).

Definition statusFilePath : string := "/tmp/caffeine8.status".
Definition APP_NAME : string := "caffeine8".
Definition SCREEN_SAVER_OBJECT : string := "/ScreenSaver".
Definition SCREEN_SAVER_INTERFACE : string := "org.freedesktop.ScreenSaver".
Definition SCREEN_SAVER_BUS : string := "org.freedesktop.ScreenSaver".
Definition LOGIN1_OBJECT : string := "/org/freedesktop/login1".
Definition LOGIN1_INTERFACE : string := "org.freedesktop.login1.Manager".
Definition LOGIN1_BUS : string := "org.freedesktop.login1".

(** [std::replace(s.begin(), s.end(), from, to)] *)
Fixpoint replace (from to : ascii) (s : string) : string :=
  match s with
  | EmptyString => EmptyString
  | String c rest =>
      String (if Ascii.eqb c from then to else c) (replace from to rest)
  end.

Definition sanitizeStatusMessage (message : string) : string :=
  replace carriage_return " " (replace newline " " message).

(** What [updateStatusFile] streams into the truncated file. *)
Definition statusText (pid : Z) (active debug : bool) (message : string)
    : string :=
  "pid=" ++ to_string pid ++ nl ++
  "active=" ++ to_string (if active then 1 else 0) ++ nl ++
  "debug=" ++ to_string (if debug then 1 else 0) ++ nl ++
  "message=" ++ sanitizeStatusMessage message ++ nl.

Section Program.

Variable env : Env.

Definition logDebug (message : string) : M unit :=
  enabled <- gets debugLoggingEnabled ;;
  if enabled then print ("[debug] " ++ message) else skip.

Definition updateStatusFile : M unit :=
  n <- tick ;;
  if negb (env_open_status env n) then
    logDebug ("Unable to open status file for writing: " ++ statusFilePath)
  else
    active <- gets inhibitorsActive ;;
    debug <- gets debugLoggingEnabled ;;
    message <- gets lastQbusError ;;
    modify (set_statusFile
              (Some (statusText (env_pid env) active debug message))).

Definition setStatusMessage (message : string) : M unit :=
  modify (set_lastQbusError message) ;;
  logDebug message ;;
  updateStatusFile.

Definition handleSignal (sig : Signal) : M unit :=
  match sig with
  | SIGTERM | SIGINT => modify (set_terminationRequested true)
  | SIGUSR1 => modify (set_acquireRequested true)
  | SIGUSR2 => modify (set_releaseRequested true)
  | SIGOTHER _ => skip
  end.

Definition getConnection (type : DBusBusType) (label : string)
    : M (option DBusConnection) :=
  n <- tick ;;
  emit (ActBusGet type) ;;
  match env_bus_get env n type with
  | BusGetError message =>
      setStatusMessage ("Failed to connect to " ++ label ++ " bus: " ++ message) ;;
      ret None
  | BusGetNull =>
      setStatusMessage
        ("Failed to obtain " ++ label ++ " DBus connection (nullptr).") ;;
      ret None
  | BusGetOk connection => ret (Some connection)
  end.

(** The connection cached in the handles, opened first when there is none;
    [None] when it cannot be opened: the first block of both acquisitions. *)
Definition sessionBus : M (option DBusConnection) :=
  cached <- gets (fun w => sessionConnection (inhibitorHandles w)) ;;
  match cached with
  | Some connection => ret (Some connection)
  | None =>
      connection <- getConnection DBUS_BUS_SESSION "session" ;;
      modifyHandles (set_sessionConnection connection) ;;
      ret connection
  end.

Definition systemBus : M (option DBusConnection) :=
  cached <- gets (fun w => systemConnection (inhibitorHandles w)) ;;
  match cached with
  | Some connection => ret (Some connection)
  | None =>
      connection <- getConnection DBUS_BUS_SYSTEM "system" ;;
      modifyHandles (set_systemConnection connection) ;;
      ret connection
  end.

Definition acquireScreenSaverInhibitor : M bool :=
  note CallAcquireScreenSaver ;;
  bus <- sessionBus ;;
  match bus with
  | None => ret false
  | Some connection =>
      n <- tick ;;
      emit (ActNewMethodCall SCREEN_SAVER_BUS SCREEN_SAVER_OBJECT
              SCREEN_SAVER_INTERFACE "Inhibit") ;;
      if negb (env_new_method_call env n) then
        setStatusMessage
          "Failed to create DBus message for ScreenSaver.Inhibit." ;;
        ret false
      else
        n <- tick ;;
        emit (ActSend connection
                (ScreenSaverInhibit APP_NAME
                   "caffeine8 prevents automatic locking")) ;;
        match env_screen_saver_inhibit env n with
        | SSCallError message =>
            setStatusMessage ("ScreenSaver.Inhibit failed: " ++ message) ;;
            ret false
        | SSNullReply =>
            setStatusMessage "ScreenSaver.Inhibit returned null reply." ;;
            ret false
        | SSUnparsable message =>
            setStatusMessage
              ("Unable to parse ScreenSaver.Inhibit reply: " ++ message) ;;
            ret false
        | SSCookie cookie =>
            modifyHandles (set_screenSaverCookie cookie) ;;
            logDebug ("Screen saver inhibitor acquired. Cookie="
                      ++ to_string cookie) ;;
            ret true
        end
  end.

Definition acquireLogin1Inhibitor (what : string) (fdOut : FdRef) : M bool :=
  note (CallAcquireLogin1 what) ;;
  bus <- systemBus ;;
  match bus with
  | None => ret false
  | Some connection =>
      n <- tick ;;
      emit (ActNewMethodCall LOGIN1_BUS LOGIN1_OBJECT LOGIN1_INTERFACE
              "Inhibit") ;;
      if negb (env_new_method_call env n) then
        setStatusMessage
          ("Failed to create DBus message for login1.Inhibit " ++ what ++ ".") ;;
        ret false
      else
        n <- tick ;;
        emit (ActSend connection
                (Login1Inhibit what APP_NAME
                   "caffeine8 is preventing automatic sleep" "block")) ;;
        match env_login1_inhibit env n what with
        | L1CallError message =>
            setStatusMessage
              ("login1.Inhibit(" ++ what ++ ") failed: " ++ message) ;;
            ret false
        | L1NullReply =>
            setStatusMessage
              ("login1.Inhibit(" ++ what ++ ") returned null reply.") ;;
            ret false
        | L1NoArguments =>
            setStatusMessage
              ("login1.Inhibit(" ++ what ++ ") reply has no arguments.") ;;
            ret false
        | L1NotUnixFd =>
            setStatusMessage
              ("login1.Inhibit(" ++ what ++ ") reply is not a UNIX FD.") ;;
            ret false
        | L1UnixFd fd =>
            modifyHandles (set_fd fdOut fd) ;;
            logDebug ("systemd inhibitor for " ++ what ++ " acquired. FD="
                      ++ to_string fd) ;;
            ret true
        end
  end.

Definition releaseScreenSaverInhibitor : M unit :=
  cookie <- gets (fun w => screenSaverCookie (inhibitorHandles w)) ;;
  bus <- gets (fun w => sessionConnection (inhibitorHandles w)) ;;
  match bus with
  | None => skip
  | Some connection =>
      if cookie =? 0 then skip
      else
        n <- tick ;;
        emit (ActNewMethodCall SCREEN_SAVER_BUS SCREEN_SAVER_OBJECT
                SCREEN_SAVER_INTERFACE "UnInhibit") ;;
        if negb (env_new_method_call env n) then
          logDebug "Failed to create DBus message for ScreenSaver.UnInhibit."
        else
          n <- tick ;;
          emit (ActSend connection (ScreenSaverUnInhibit cookie)) ;;
          match env_screen_saver_uninhibit env n with
          | Some message => logDebug ("ScreenSaver.UnInhibit failed: " ++ message)
          | None => skip
          end ;;
          modifyHandles (set_screenSaverCookie 0) ;;
          logDebug "Screen saver inhibitor released."
  end.

Definition releaseLogin1Fd (fdRef : FdRef) (what : string) : M unit :=
  fd <- gets (fun w => get_fd fdRef (inhibitorHandles w)) ;;
  if 0 <=? fd then
    emit (ActClose fd) ;;
    logDebug ("systemd inhibitor for " ++ what ++ " released.") ;;
    modifyHandles (set_fd fdRef (-1))
  else skip.

Definition cleanupInhibitors : M unit :=
  note CallCleanup ;;
  releaseScreenSaverInhibitor ;;
  releaseLogin1Fd RefIdleFd "idle" ;;
  releaseLogin1Fd RefSleepFd "sleep" ;;
  modify (set_inhibitorsActive false) ;;
  session <- gets (fun w => sessionConnection (inhibitorHandles w)) ;;
  match session with
  | Some connection =>
      emit (ActConnectionUnref connection) ;;
      modifyHandles (set_sessionConnection None)
  | None => skip
  end ;;
  system <- gets (fun w => systemConnection (inhibitorHandles w)) ;;
  match system with
  | Some connection =>
      emit (ActConnectionUnref connection) ;;
      modifyHandles (set_systemConnection None)
  | None => skip
  end ;;
  updateStatusFile.

Definition acquireInhibitors : M bool :=
  screen <- acquireScreenSaverInhibitor ;;
  idle <- acquireLogin1Inhibitor "idle" RefIdleFd ;;
  sleep <- acquireLogin1Inhibitor "sleep" RefSleepFd ;;
  modify (set_inhibitorsActive (screen && idle && sleep)) ;;
  note (CallAttempt screen idle sleep) ;;
  active <- gets inhibitorsActive ;;
  if active then
    setStatusMessage "Inhibitors active (screen saver, idle, sleep)." ;;
    ret true
  else
    updateStatusFile ;;
    ret false.

(** [setDebugMode], which [main] calls before anything else. *)
Definition setDebugMode (enabled : bool) : M unit :=
  modify (set_debugLoggingEnabled enabled) ;;
  if enabled then logDebug "Debug logging enabled." else skip.

(** *** The polling loop

    Signals arrive at any time and only set a flag; what matters is the
    window in which they arrive relative to the three places where the loop
    reads a flag. One iteration sees the signals delivered before the test
    of [terminationRequested] (for instance during the [sleep(1)] of the
    iteration before), those delivered before the test of
    [acquireRequested] and those delivered before the test of
    [releaseRequested] (for instance during a blocking D-Bus call). *)
Record Tick : Type := mkTick {
  beforeLoopTest : list Signal;
  beforeAcquireTest : list Signal;
  beforeReleaseTest : list Signal
}.

Fixpoint deliver (sigs : list Signal) : M unit :=
  match sigs with
  | [] => skip
  | sig :: rest => handleSignal sig ;; deliver rest
  end.

(** [if (acquireRequested) { ... }] in the body of the loop *)
Definition acquireBlock : M unit :=
  requested <- gets acquireRequested ;;
  if requested then
    modify (set_acquireRequested false) ;;
    active <- gets inhibitorsActive ;;
    if negb active then
      acquired <- acquireInhibitors ;;
      if negb acquired then
        logDebug "Acquire request failed; inhibitors remain inactive."
      else skip
    else
      logDebug "Acquire request ignored; inhibitors already active." ;;
      updateStatusFile
  else skip.

(** [if (releaseRequested) { ... }] in the body of the loop *)
Definition releaseBlock : M unit :=
  requested <- gets releaseRequested ;;
  if requested then
    modify (set_releaseRequested false) ;;
    active <- gets inhibitorsActive ;;
    if active then
      cleanupInhibitors ;;
      setStatusMessage "Inhibitors released by user request."
    else
      setStatusMessage "Inhibitors already inactive."
  else skip.

(** The [while (!terminationRequested)] loop over the given iterations:
    [true] when the loop was left, [false] when it is still polling after
    the last of them. *)
Fixpoint pollingLoop (ticks : list Tick) : M bool :=
  match ticks with
  | [] => ret false
  | t :: rest =>
      deliver (beforeLoopTest t) ;;
      terminate <- gets terminationRequested ;;
      if terminate then ret true
      else
        deliver (beforeAcquireTest t) ;;
        acquireBlock ;;
        deliver (beforeReleaseTest t) ;;
        releaseBlock ;;
        (* sleep(1) *)
        pollingLoop rest
  end.

(** What [runInhibitorLoop] does once the loop is left. *)
Definition exitInhibitorLoop : M unit :=
  logDebug "Termination requested, cleaning up inhibitors." ;;
  wereActive <- gets inhibitorsActive ;;
  cleanupInhibitors ;;
  if wereActive then setStatusMessage "Inhibitors released (process exiting)."
  else skip.

(** [runInhibitorLoop] up to the point where the loop is left: the initial
    attempt, the installation of the handlers and the loop. *)
Definition enterInhibitorLoop (ticks : list Tick) : M bool :=
  acquired <- acquireInhibitors ;;
  (if negb acquired then logDebug "Initial inhibitor acquisition failed."
   else skip) ;;
  (* sigaction(SIGTERM, SIGINT, SIGUSR1, SIGUSR2) *)
  pollingLoop ticks.

(** [runInhibitorLoop]; the result tells whether the function returned. *)
Definition runInhibitorLoop (ticks : list Tick) : M bool :=
  exited <- enterInhibitorLoop ticks ;;
  (if exited then exitInhibitorLoop else skip) ;;
  ret exited.

End Program.

(** ** The reader of the status file

    The lambda [readStatus] of [showUI], which the window calls on every
    refresh, with the record [UiStatus] it fills. *)
Module Ui.

Record UiStatus : Type := mkUiStatus {
  hasData : bool;
  active : bool;
  debug : bool;
  pid : Z;
  message : string
}.

Definition set_active (b : bool) (info : UiStatus) : UiStatus :=
  mkUiStatus (hasData info) b (debug info) (pid info) (message info).

Definition set_debug (b : bool) (info : UiStatus) : UiStatus :=
  mkUiStatus (hasData info) (active info) b (pid info) (message info).

Definition set_pid (p : Z) (info : UiStatus) : UiStatus :=
  mkUiStatus (hasData info) (active info) (debug info) p (message info).

Definition set_message (m : string) (info : UiStatus) : UiStatus :=
  mkUiStatus (hasData info) (active info) (debug info) (pid info) m.

(** The lines that successive calls of [std::getline] return: split at
    every newline; a last line needs no newline, and no line follows the
    last newline. *)
Fixpoint getlines (s : string) : list string :=
  match s with
  | EmptyString => []
  | String c rest =>
      if Ascii.eqb c newline then EmptyString :: getlines rest
      else match getlines rest with
           | [] => [String c EmptyString]
           | line :: others => String c line :: others
           end
  end.

(** [line.find(c)]; [None] is [npos]. *)
Fixpoint find (c : ascii) (line : string) : option nat :=
  match line with
  | EmptyString => None
  | String c' rest =>
      if Ascii.eqb c' c then Some O
      else match find c rest with
           | Some pos => Some (S pos)
           | None => None
           end
  end.

(** [s.substr(0, count)] and [s.substr(pos)] *)
Fixpoint substr_to (count : nat) (s : string) : string :=
  match count, s with
  | S count', String c rest => String c (substr_to count' rest)
  | _, _ => EmptyString
  end.

Fixpoint substr_from (pos : nat) (s : string) : string :=
  match pos, s with
  | S pos', String _ rest => substr_from pos' rest
  | _, _ => s
  end.

Definition isspace (c : ascii) : bool :=
  let n := nat_of_ascii c in
  Nat.eqb n 32 || (Nat.leb 9 n && Nat.leb n 13).

Definition digit (c : ascii) : option Z :=
  let n := nat_of_ascii c in
  if Nat.leb 48 n && Nat.leb n 57 then Some (Z.of_nat n - 48) else None.

Definition LONG_MAX : Z := 2 ^ 63 - 1.
Definition LONG_MIN : Z := - 2 ^ 63.

(** The digits at the head of [s], read in base ten after [acc]; the
    second component tells whether there was one. *)
Fixpoint digits (acc : Z) (seen : bool) (s : string) : Z * bool :=
  match s with
  | EmptyString => (acc, seen)
  | String c rest =>
      match digit c with
      | Some d => digits (10 * acc + d) true rest
      | None => (acc, seen)
      end
  end.

Fixpoint skip_spaces (s : string) : string :=
  match s with
  | String c rest => if isspace c then skip_spaces rest else s
  | EmptyString => s
  end.

(** [std::strtol(s, &end, 10)]: [None] when nothing was converted
    ([end == s]); out of range values are clamped. *)
Definition strtol (s : string) : option Z :=
  let s := skip_spaces s in
  let '(negative, s) :=
    match s with
    | String "-" rest => (true, rest)
    | String "+" rest => (false, rest)
    | _ => (false, s)
    end in
  let '(magnitude, seen) := digits 0 false s in
  if seen then
    let value := if negative then - magnitude else magnitude in
    Some (Z.max LONG_MIN (Z.min LONG_MAX value))
  else None.

(** [static_cast<pid_t>] of a [long]: the low 32 bits, signed. *)
Definition to_pid_t (z : Z) : Z := (z + 2 ^ 31) mod 2 ^ 32 - 2 ^ 31.

Definition truthy (value : string) : bool :=
  String.eqb value "1" || String.eqb value "true" || String.eqb value "TRUE".

(** The body of the [while (std::getline(statusFile, line))] loop. *)
Definition readLine (info : UiStatus) (line : string) : UiStatus :=
  match find "=" line with
  | None => info
  | Some pos =>
      let key := substr_to pos line in
      let value := substr_from (S pos) line in
      if String.eqb key "active" then set_active (truthy value) info
      else if String.eqb key "debug" then set_debug (truthy value) info
      else if String.eqb key "pid" then
        match strtol value with
        | Some parsed => set_pid (to_pid_t parsed) info
        | None => info
        end
      else if String.eqb key "message" then set_message value info
      else info
  end.

(** [readStatus] on the content of the status file, [None] when the file
    cannot be opened. *)
Definition readStatus (file : option string) : UiStatus :=
  let info := mkUiStatus false false false (-1) "Awaiting status update..." in
  match file with
  | None => set_message "Status file not found." info
  | Some text =>
      let info := mkUiStatus true (active info) (debug info) (pid info)
                    (message info) in
      let info := fold_left readLine (getlines text) info in
      if String.eqb (message info) "" then
        set_message "Status file present but empty." info
      else info
  end.

End Ui.

(** ** Assertions on runs *)

(** [hoare P m Q]: from a state where [P] holds, [m] ends with a result
    and in a state that [Q] relates. The functions are total, so this is
    total correctness. *)
Definition hoare {A : Type} (P : World -> Prop) (m : M A)
    (Q : A -> World -> Prop) : Prop :=
  forall w, P w -> Q (fst (m w)) (snd (m w)).

(** [m] maintains [I]. *)
Definition stable {A : Type} (I : World -> Prop) (m : M A) : Prop :=
  hoare I m (fun _ => I).

(** [m] ends in [I], whatever the state it starts from. *)
Definition establishes {A : Type} (m : M A) (I : World -> Prop) : Prop :=
  hoare (fun _ => True) m (fun _ => I).

(** [m] leaves the observation [F] of the state as it was. *)
Definition keeps {A B : Type} (F : World -> B) (m : M A) : Prop :=
  forall w, F (snd (m w)) = F w.


(** ** The vocabulary of the specification *)

(** *** The flag that the history accounts for

    An attempt is a run of [acquireInhibitors], logged with the results of
    its three acquisitions; a release on request and the cleanup on exit
    both go through [cleanupInhibitors]. *)
Definition settles (c : Call) : Prop :=
  match c with
  | CallAttempt _ _ _ | CallCleanup => True
  | _ => False
  end.

(** The most recent attempt succeeded on the three categories and no
    cleanup came after it. *)
Definition lastAttemptHolds (log : list Call) : Prop :=
  exists before after,
    log = (before ++ CallAttempt true true true :: after)%list /\
    forall c, In c after -> ~ settles c.

(** The same, computed along the log. *)
Definition afterCall (flag : bool) (c : Call) : bool :=
  match c with
  | CallAttempt screen idle sleep => screen && idle && sleep
  | CallCleanup => false
  | _ => flag
  end.

Definition expectedActive (log : list Call) : bool :=
  fold_left afterCall log false.

Arguments expectedActive : simpl never.

Definition flagMatchesLog (w : World) : Prop :=
  inhibitorsActive w = expectedActive (callLog w).

(** Between the entry of [cleanupInhibitors] and the reset of the flag, the
    log already says that the flag is to be false. *)
Definition logSaysInactive (w : World) : Prop :=
  expectedActive (callLog w) = false.

(** *** The text of the status file *)

(** Newlines and carriage returns become spaces, other characters stay. *)
Definition spaceOut (c : ascii) : ascii :=
  if Ascii.eqb c newline || Ascii.eqb c carriage_return then " "%char else c.

Fixpoint mapString (f : ascii -> ascii) (s : string) : string :=
  match s with
  | EmptyString => EmptyString
  | String c rest => String (f c) (mapString f rest)
  end.

Fixpoint occurs (c : ascii) (s : string) : bool :=
  match s with
  | EmptyString => false
  | String c' rest => Ascii.eqb c' c || occurs c rest
  end.

Definition flagDigit (b : bool) : string := if b then "1" else "0".

(** *** What a cleanup does

    The operations that [cleanupInhibitors] performs from a given state,
    read off its three release steps and the two [dbus_connection_unref]. *)

(** Is the ScreenSaver.UnInhibit request sent? Only with a cookie and a
    session connection, and when libdbus could build the message. *)
Definition uninhibitSent (env : Env) (w : World) : bool :=
  match sessionConnection (inhibitorHandles w) with
  | Some _ =>
      negb (screenSaverCookie (inhibitorHandles w) =? 0)
      && env_new_method_call env (clock w)
  | None => false
  end.

Definition screenSaverReleaseActions (env : Env) (w : World)
    : list BusAction :=
  match sessionConnection (inhibitorHandles w) with
  | Some connection =>
      if screenSaverCookie (inhibitorHandles w) =? 0 then []
      else
        ActNewMethodCall SCREEN_SAVER_BUS SCREEN_SAVER_OBJECT
          SCREEN_SAVER_INTERFACE "UnInhibit"
        :: (if env_new_method_call env (clock w)
            then [ActSend connection
                    (ScreenSaverUnInhibit
                       (screenSaverCookie (inhibitorHandles w)))]
            else [])
  | None => []
  end.

Definition closeActions (fd : Z) : list BusAction :=
  if 0 <=? fd then [ActClose fd] else [].

Definition unrefActions (connection : option DBusConnection)
    : list BusAction :=
  match connection with
  | Some c => [ActConnectionUnref c]
  | None => []
  end.

Definition releaseActions (env : Env) (w : World) : list BusAction :=
  (screenSaverReleaseActions env w
   ++ closeActions (idleFd (inhibitorHandles w))
   ++ closeActions (sleepFd (inhibitorHandles w))
   ++ unrefActions (sessionConnection (inhibitorHandles w))
   ++ unrefActions (systemConnection (inhibitorHandles w)))%list.

Definition releasedFd (fd : Z) : Z := if 0 <=? fd then -1 else fd.

Definition releasedHandles (env : Env) (w : World) : InhibitorHandles :=
  mkHandles None None
    (if uninhibitSent env w then 0
     else screenSaverCookie (inhibitorHandles w))
    (releasedFd (idleFd (inhibitorHandles w)))
    (releasedFd (sleepFd (inhibitorHandles w))).

(** The state has no lease operation left to undo: a second cleanup finds
    nothing to release. *)
Definition nothingToRelease (w : World) : Prop :=
  sessionConnection (inhibitorHandles w) = None /\
  systemConnection (inhibitorHandles w) = None /\
  idleFd (inhibitorHandles w) < 0 /\
  sleepFd (inhibitorHandles w) < 0.

(** The file after a publication from [w] at request [n] of the
    environment. *)
Definition publishedFile (env : Env) (n : nat) (w : World) : option string :=
  if env_open_status env n then
    Some (statusText (env_pid env) (inhibitorsActive w)
            (debugLoggingEnabled w) (lastQbusError w))
  else statusFile w.

(** The lines that reach standard output: none unless debug logging is on. *)
Definition debugLines (w : World) (messages : list string) : list string :=
  if debugLoggingEnabled w then map (append "[debug] ") messages else [].

(** What a publication logs when the status file cannot be opened. *)
Definition openFailure (env : Env) (n : nat) : list string :=
  if env_open_status env n then []
  else ["Unable to open status file for writing: " ++ statusFilePath].

(** Does [needle] occur in [s]? *)
Fixpoint hasInfix (needle s : string) : bool :=
  String.prefix needle s ||
  match s with
  | EmptyString => false
  | String _ rest => hasInfix needle rest
  end.

(** *** Environments used in the examples *)

(** Every request succeeds; the screen-saver cookie is 77 and a descriptor
    is numbered after the request that returned it. *)
Definition envAllOk : Env :=
  mkEnv 4242 (fun _ => true) (fun n _ => BusGetOk n) (fun _ => true)
    (fun _ => SSCookie 77) (fun n _ => L1UnixFd (Z.of_nat n)) (fun _ => None).

(** No screen-saver service on the session bus; logind answers. *)
Definition envNoScreenSaver : Env :=
  mkEnv 4242 (fun _ => true) (fun n _ => BusGetOk n) (fun _ => true)
    (fun _ => SSCallError "The name org.freedesktop.ScreenSaver was not provided by any .service files")
    (fun n _ => L1UnixFd (Z.of_nat n)) (fun _ => None).

(** As [envAllOk], but libdbus cannot allocate a message any more once the
    leases are acquired. *)
Definition envOutOfMemory : Env :=
  mkEnv 4242 (fun _ => true) (fun n _ => BusGetOk n) (fun n => Nat.ltb n 9)
    (fun _ => SSCookie 77) (fun n _ => L1UnixFd (Z.of_nat n)) (fun _ => None).

(** As [envAllOk], but the status file cannot be opened for writing (it
    belongs to another user, say). *)
Definition envReadOnlyStatus : Env :=
  mkEnv 4242 (fun _ => false) (fun n _ => BusGetOk n) (fun _ => true)
    (fun _ => SSCookie 77) (fun n _ => L1UnixFd (Z.of_nat n)) (fun _ => None).

(** The state in which [envAllOk] leaves a controller started without
    debug logging: the three leases are held. *)
Definition startedWorld : World :=
  Eval vm_compute in
    snd (enterInhibitorLoop envAllOk [] (initialWorld false None)).

(** The state in which [envNoScreenSaver] leaves a controller started in
    debug mode: the screen-saver lease failed, the idle and sleep leases
    are held, the inhibitors are inactive. *)
Definition partialWorld : World :=
  Eval vm_compute in
    snd (enterInhibitorLoop envNoScreenSaver [] (initialWorld true None)).

(** A status file left by an instance that was stopped earlier. *)
Definition staleStatus : string :=
  statusText 999 false false "Inhibitors released (process exiting).".

Definition isUnInhibit (a : BusAction) : bool :=
  match a with
  | ActSend _ (ScreenSaverUnInhibit _) => true
  | _ => false
  end.

Definition isRelease (a : BusAction) : bool :=
  match a with
  | ActSend _ (ScreenSaverUnInhibit _) => true
  | ActClose _ => true
  | ActConnectionUnref _ => true
  | _ => false
  end.

(** The method calls sent, in order, without the connection they went
    through. *)
Definition sentCalls (trace : list BusAction) : list MethodCall :=
  flat_map (fun a => match a with
                     | ActSend _ call => [call]
                     | _ => []
                     end) trace.

Definition exitMessage : string := "Inhibitors released (process exiting).".

Definition notExitMessage (w : World) : Prop := lastQbusError w <> exitMessage.

(** *** The status file and the state *)

(** The file holds what a publication of the present state writes. *)
Definition statusCurrent (env : Env) (w : World) : Prop :=
  statusFile w =
  Some (statusText (env_pid env) (inhibitorsActive w)
          (debugLoggingEnabled w) (lastQbusError w)).

(** What the window reads back agrees with the flags in memory. *)
Definition readsBack (w : World) : Prop :=
  let info := Ui.readStatus (statusFile w) in
  Ui.hasData info = true /\
  Ui.active info = inhibitorsActive w /\
  Ui.debug info = debugLoggingEnabled w.

(** *** Two runs that differ in the debug flag *)

(** Two status files that agree but for the [debug] line. *)
Definition statusAgree (f1 f2 : option string) : Prop :=
  f1 = f2 \/
  exists pid active debug1 debug2 message,
    f1 = Some (statusText pid active debug1 message) /\
    f2 = Some (statusText pid active debug2 message).

(** Everything agrees except the debug flag, what was printed and the
    [debug] line of the status file. *)
Definition sameButDebug (w1 w2 : World) : Prop :=
  inhibitorHandles w1 = inhibitorHandles w2 /\
  inhibitorsActive w1 = inhibitorsActive w2 /\
  terminationRequested w1 = terminationRequested w2 /\
  acquireRequested w1 = acquireRequested w2 /\
  releaseRequested w1 = releaseRequested w2 /\
  lastQbusError w1 = lastQbusError w2 /\
  busTrace w1 = busTrace w2 /\
  clock w1 = clock w2 /\
  callLog w1 = callLog w2 /\
  statusAgree (statusFile w1) (statusFile w2).

(** [m] cannot tell such states apart. *)
Definition respects {A : Type} (m : M A) : Prop :=
  forall w1 w2, sameButDebug w1 w2 ->
    fst (m w1) = fst (m w2) /\ sameButDebug (snd (m w1)) (snd (m w2)).

(** ** Further vocabulary *)

Definition isBusGet (a : BusAction) : bool :=
  match a with
  | ActBusGet _ => true
  | _ => false
  end.

(** The messages that a failed acquisition leaves as status message. *)
Definition isAcquisitionError (s : string) : bool :=
  String.prefix "Failed to connect to " s
  || String.prefix "Failed to obtain " s
  || String.prefix "Failed to create DBus message for " s
  || String.prefix "ScreenSaver.Inhibit failed: " s
  || String.prefix "ScreenSaver.Inhibit returned null reply." s
  || String.prefix "Unable to parse ScreenSaver.Inhibit reply: " s
  || String.prefix "login1.Inhibit(" s.

Definition activeMessage : string :=
  "Inhibitors active (screen saver, idle, sleep).".

(** Nothing has been printed and debug logging is off. *)
Definition quiet (w : World) : Prop :=
  debugLoggingEnabled w = false /\ stdout w = [].

(** *** Signals as pending requests *)

Definition requestsTermination (sig : Signal) : bool :=
  match sig with
  | SIGTERM | SIGINT => true
  | _ => false
  end.

Definition requestsAcquire (sig : Signal) : bool :=
  match sig with
  | SIGUSR1 => true
  | _ => false
  end.

Definition requestsRelease (sig : Signal) : bool :=
  match sig with
  | SIGUSR2 => true
  | _ => false
  end.

(** The state once the signals [sigs] have been handled, in any order and
    any number of times each. *)
Definition afterSignals (sigs : list Signal) (w : World) : World :=
  set_terminationRequested
    (terminationRequested w || existsb requestsTermination sigs)
    (set_acquireRequested
       (acquireRequested w || existsb requestsAcquire sigs)
       (set_releaseRequested
          (releaseRequested w || existsb requestsRelease sigs) w)).

Definition noSignals (t : Tick) : Prop :=
  beforeLoopTest t = [] /\ beforeAcquireTest t = [] /\ beforeReleaseTest t = [].

Definition noRequests (w : World) : Prop :=
  terminationRequested w = false /\
  acquireRequested w = false /\
  releaseRequested w = false.

(** Both connections are cached and [opened] are the calls of
    [dbus_bus_get] made so far. *)
Definition connectionsCached (c1 c2 : DBusConnection)
    (opened : list BusAction) (w : World) : Prop :=
  sessionConnection (inhibitorHandles w) = Some c1 /\
  systemConnection (inhibitorHandles w) = Some c2 /\
  filter isBusGet (busTrace w) = opened.

(** ** The command line

    [main], from the side of one process: what it does, in order, and the
    value it returns. [checkExistingInstance] and [fork] are answered by
    the environment; the calls of [main] into the rest of the program are
    recorded, not run. *)

Inductive MainAction : Type :=
| MainPrint (line : string)
| MainError (line : string)
| MainSetDebugMode (enabled : bool)
| MainCheckExistingInstance
| MainKill (pid : Z) (sig : Signal)
| MainDeletePidFile
| MainFork
| MainWritePidFile (pid : Z)
| MainRunInhibitorLoop
| MainInitializeMagick
| MainShowUI (targetPid : Z).

Record MainEnv : Type := mkMainEnv {
  (** the pid that [checkExistingInstance] finds alive, when it returns
      true *)
  main_existing : option Z;
  (** what [fork] returns in this process *)
  main_fork : Z
}.

(** The loop over [argv[1..]]: the debug flag and the command, or [None]
    when it gives up on a second command. *)
Fixpoint parseArguments (args : list string) (debugRequested : bool)
    (command : string) : option (bool * string) :=
  match args with
  | [] => Some (debugRequested, command)
  | arg :: rest =>
      if String.eqb arg "--debug" then parseArguments rest true command
      else if String.eqb command "" then parseArguments rest debugRequested arg
      else None
  end.

Local Open Scope list_scope.

Definition main (menv : MainEnv) (args : list string)
    : list MainAction * Z :=
  match parseArguments args false "" with
  | None => ([MainError "Too many arguments provided."], 1)
  | Some (debugRequested, command) =>
      let command := if String.eqb command "" then "start" else command in
      let begin := [MainSetDebugMode debugRequested] in
      if String.eqb command "stop" then
        match main_existing menv with
        | Some existingPid =>
            (begin ++
             [MainCheckExistingInstance;
              MainPrint ("Stopping existing instance with PID "
                         ++ to_string existingPid)%string;
              MainKill existingPid SIGTERM;
              MainDeletePidFile], 0)
        | None =>
            (begin ++
             [MainCheckExistingInstance;
              MainPrint "No existing instance found."], 0)
        end
      else if String.eqb command "attach" then
        match main_existing menv with
        | Some existingPid =>
            (begin ++
             [MainCheckExistingInstance; MainInitializeMagick;
              MainShowUI existingPid], 0)
        | None =>
            let pid := main_fork menv in
            let forked :=
              begin ++
              [MainCheckExistingInstance;
               MainPrint "Warning: caffeine8 is not running. Starting it now.";
               MainFork] in
            if 0 <? pid then
              (forked ++
               [MainWritePidFile pid; MainInitializeMagick; MainShowUI pid], 0)
            else if pid <? 0 then
              (forked ++
               [MainError "Fork failed while starting caffeine8 for attach."],
               1)
            else (forked ++ [MainRunInhibitorLoop], 0)
        end
      else if negb (String.eqb command "start") then
        (begin ++
         [MainError "Invalid argument. Use 'start', 'stop', or 'attach'."], 1)
      else
        let checked :=
          begin ++
          MainCheckExistingInstance ::
          match main_existing menv with
          | Some existingPid =>
              [MainPrint ("An instance of caffeine8 is already running with PID "
                          ++ to_string existingPid ++ ". Killing it.")%string;
               MainKill existingPid SIGTERM]
          | None => []
          end in
        let pid := main_fork menv in
        if pid <? 0 then (checked ++ [MainFork; MainError "Fork failed."], 1)
        else if 0 <? pid then
          (checked ++
           [MainFork; MainWritePidFile pid;
            MainPrint ("New instance of caffeine8 started with PID "
                       ++ to_string pid)%string], 0)
        else (checked ++ [MainFork; MainRunInhibitorLoop], 0)
  end.

Local Open Scope string_scope.
Local Open Scope Z_scope.
Local Open Scope prog_scope.

(** The command that [main] settles on, [None] after too many arguments. *)
Definition commandOf (args : list string) : option string :=
  match parseArguments args false "" with
  | None => None
  | Some (_, command) =>
      Some (if String.eqb command "" then "start" else command)
  end.

Definition isDebugFlag (arg : string) : bool := String.eqb arg "--debug".

(** The arguments that are not the debug flag, without the empty ones
    that come before the first other one. *)
Fixpoint dropEmpty (args : list string) : list string :=
  match args with
  | arg :: rest => if String.eqb arg "" then dropEmpty rest else args
  | [] => []
  end.

Definition commandWords (args : list string) : list string :=
  dropEmpty (filter (fun arg => negb (isDebugFlag arg)) args).

(** ** The toggle key of the window

    The branch of the event loop of [showUI] for the keys t and T: the
    signal that reaches the controller, if one does, the text shown as
    last action, and whether the status file is read again. [sent] tells
    whether [kill] succeeds. *)
Definition onToggle (targetPid : Z) (currentStatus : Ui.UiStatus)
    (sent : Signal -> bool) : option Signal * string * bool :=
  if 0 <? targetPid then
    let signalToSend :=
      if Ui.active currentStatus then SIGUSR2 else SIGUSR1 in
    if sent signalToSend then
      (Some signalToSend,
       if Ui.active currentStatus
       then "Toggle requested: release inhibitors."
       else "Toggle requested: acquire inhibitors.",
       true)
    else (None, "Failed to signal caffeine8 process.", false)
  else (None, "No active caffeine8 process.", false).
(** * Properties *)

Local Open Scope prog_scope.

(** ** Rules *)

Lemma run_bind {A B : Type} (m : M A) (k : A -> M B) (w : World) :
  bind m k w = k (fst (m w)) (snd (m w)).
Proof. unfold bind. destruct (m w); reflexivity. Qed.

Lemma hoare_ret {A : Type} (P : World -> Prop) (a : A) (Q : A -> World -> Prop) :
  (forall w, P w -> Q a w) -> hoare P (ret a) Q.
Proof. intros H w Hw. apply H, Hw. Qed.

Lemma hoare_bind {A B : Type} (P : World -> Prop) (R : A -> World -> Prop)
    (Q : B -> World -> Prop) (m : M A) (k : A -> M B) :
  hoare P m R -> (forall a, hoare (R a) (k a) Q) -> hoare P (bind m k) Q.
Proof.
  intros Hm Hk w Hw. rewrite run_bind. apply Hk, Hm, Hw.
Qed.

Lemma hoare_gets {A : Type} (P : World -> Prop) (f : World -> A)
    (Q : A -> World -> Prop) :
  (forall w, P w -> Q (f w) w) -> hoare P (gets f) Q.
Proof. intros H w Hw. apply H, Hw. Qed.

Lemma hoare_modify (P : World -> Prop) (f : World -> World)
    (Q : unit -> World -> Prop) :
  (forall w, P w -> Q tt (f w)) -> hoare P (modify f) Q.
Proof. intros H w Hw. apply H, Hw. Qed.

Lemma hoare_tick (P : World -> Prop) (Q : nat -> World -> Prop) :
  (forall w, P w -> Q (clock w) (set_clock (S (clock w)) w)) -> hoare P tick Q.
Proof. intros H w Hw. apply H, Hw. Qed.

Lemma hoare_conseq {A : Type} (P P' : World -> Prop) (Q Q' : A -> World -> Prop)
    (m : M A) :
  hoare P' m Q' -> (forall w, P w -> P' w) ->
  (forall a w, Q' a w -> Q a w) -> hoare P m Q.
Proof. intros H HP HQ w Hw. apply HQ, H, HP, Hw. Qed.

Lemma stable_bind {A B : Type} (I : World -> Prop) (m : M A) (k : A -> M B) :
  stable I m -> (forall a, stable I (k a)) -> stable I (bind m k).
Proof. intros Hm Hk. eapply hoare_bind; [exact Hm | exact Hk]. Qed.

Lemma stable_ret {A : Type} (I : World -> Prop) (a : A) : stable I (ret a).
Proof. apply hoare_ret; auto. Qed.

Lemma stable_gets {A : Type} (I : World -> Prop) (f : World -> A) :
  stable I (gets f).
Proof. apply hoare_gets; auto. Qed.

Lemma stable_modify (I : World -> Prop) (f : World -> World) :
  (forall w, I w -> I (f w)) -> stable I (modify f).
Proof. intro H. apply hoare_modify; exact H. Qed.

Lemma stable_tick (I : World -> Prop) :
  (forall w n, I w -> I (set_clock n w)) -> stable I tick.
Proof. intro H. apply hoare_tick. intros; apply H; assumption. Qed.

Lemma establishes_bind {A B : Type} (I : World -> Prop) (m : M A) (k : A -> M B) :
  (forall a, establishes (k a) I) -> establishes (bind m k) I.
Proof.
  intros Hk. apply hoare_bind with (R := fun _ _ => True).
  - intros w _; exact Logic.I.
  - exact Hk.
Qed.

Lemma establishes_then {A B : Type} (I : World -> Prop) (m : M A) (k : A -> M B) :
  establishes m I -> (forall a, stable I (k a)) -> establishes (bind m k) I.
Proof. intros Hm Hk. eapply hoare_bind; [exact Hm | exact Hk]. Qed.

Lemma stable_of_establishes {A : Type} (I : World -> Prop) (m : M A) :
  establishes m I -> stable I m.
Proof. intros H w _. apply H. exact Logic.I. Qed.

Lemma as_stable {A : Type} (I : World -> Prop) (m : M A) :
  stable I m -> hoare I m (fun _ => I).
Proof. intro H. exact H. Qed.

Lemma keeps_stable {A B : Type} (F : World -> B) (m : M A) :
  keeps F m <-> forall v, stable (fun w => F w = v) m.
Proof.
  split.
  - intros H v w Hw. rewrite H. exact Hw.
  - intros H w. apply (H (F w) w). reflexivity.
Qed.

(** Structural decomposition of a program whose primitive steps maintain
    the invariant; [solver] closes the obligations of the primitives. *)
Ltac stable_step solver :=
  lazymatch goal with
  | |- stable _ (bind _ _) => apply stable_bind; [ | intro ]
  | |- stable _ (ret _) => apply stable_ret
  | |- stable _ skip => apply stable_ret
  | |- stable _ (gets _) => apply stable_gets
  | |- stable _ tick => apply stable_tick; solver
  | |- stable _ (modify _) => apply stable_modify; solver
  | |- stable _ (emit _) => apply stable_modify; solver
  | |- stable _ (print _) => apply stable_modify; solver
  | |- stable _ (note _) => apply stable_modify; solver
  | |- stable _ (modifyHandles _) => apply stable_modify; solver
  | |- stable _ (if ?b then _ else _) => destruct b
  | |- stable _ (match ?x with _ => _ end) => destruct x
  end.

Ltac unfold_program :=
  unfold runInhibitorLoop, enterInhibitorLoop, exitInhibitorLoop, releaseBlock, acquireBlock, acquireInhibitors,
    cleanupInhibitors, releaseLogin1Fd, releaseScreenSaverInhibitor,
    acquireLogin1Inhibitor, acquireScreenSaverInhibitor, systemBus,
    sessionBus, getConnection, handleSignal, setStatusMessage,
    updateStatusFile, logDebug.

Ltac stable_tac solver :=
  unfold_program; repeat stable_step solver.

(** ** Running the release path

    The functions of the release path are short enough to be run on a
    symbolic state, one case per answer of the environment. *)

Ltac exec_step :=
  match goal with
  | |- context [match ?x with _ => _ end] =>
      lazymatch x with
      | context [match _ with _ => _ end] => fail
      | _ => destruct x eqn:?
      end
  end.

Ltac exec_norm :=
  cbv -[Z.leb Z.eqb Z.lt Z.le statusText to_string String.append List.app
        sentCalls
        Nat.lt Nat.le env_pid env_open_status env_bus_get env_new_method_call
        env_screen_saver_inhibit env_login1_inhibit
        env_screen_saver_uninhibit].

Ltac exec := exec_norm; repeat (exec_step; exec_norm).

Ltac exec_done :=
  rewrite ?app_nil_r, <- ?app_assoc; cbn [List.app];
  repeat split; try reflexivity; try lia.

Lemma logDebug_run (message : string) (w : World) :
  logDebug message w =
  (tt, if debugLoggingEnabled w
       then set_stdout (stdout w ++ ["[debug] " ++ message]) w else w).
Proof. unfold logDebug. cbv [bind gets]. destruct (debugLoggingEnabled w); reflexivity. Qed.

Lemma releaseLogin1Fd_released (fdRef : FdRef) (what : string) (w : World) :
  get_fd fdRef (inhibitorHandles w) < 0 ->
  releaseLogin1Fd fdRef what w = (tt, w).
Proof.
  intro H. unfold releaseLogin1Fd. cbv [bind gets].
  destruct (Z.leb_spec 0 (get_fd fdRef (inhibitorHandles w))); [lia|reflexivity].
Qed.

Lemma cleanupInhibitors_run (env : Env) (w : World) :
  let w' := snd (cleanupInhibitors env w) in
  inhibitorHandles w' = releasedHandles env w /\
  inhibitorsActive w' = false /\
  busTrace w' = (busTrace w ++ releaseActions env w)%list /\
  callLog w' = (callLog w ++ [CallCleanup])%list /\
  lastQbusError w' = lastQbusError w /\
  debugLoggingEnabled w' = debugLoggingEnabled w /\
  terminationRequested w' = terminationRequested w /\
  acquireRequested w' = acquireRequested w /\
  releaseRequested w' = releaseRequested w /\
  (clock w < clock w')%nat /\
  statusFile w' =
    publishedFile env (Nat.pred (clock w')) (set_inhibitorsActive false w).
Proof.
  destruct w as [[sc yc cookie ifd sfd] dbg act t a r msg file out tr clk log].
  exec; exec_done.
Qed.

Lemma updateStatusFile_run (env : Env) (w : World) :
  let w' := snd (updateStatusFile env w) in
  inhibitorHandles w' = inhibitorHandles w /\
  inhibitorsActive w' = inhibitorsActive w /\
  busTrace w' = busTrace w /\
  callLog w' = callLog w /\
  lastQbusError w' = lastQbusError w /\
  debugLoggingEnabled w' = debugLoggingEnabled w /\
  terminationRequested w' = terminationRequested w /\
  acquireRequested w' = acquireRequested w /\
  releaseRequested w' = releaseRequested w /\
  clock w' = S (clock w) /\
  statusFile w' = publishedFile env (clock w) w /\
  stdout w' = (stdout w ++ debugLines w (openFailure env (clock w)))%list.
Proof.
  destruct w as [h dbg act t a r msg file out tr clk log].
  exec; exec_done.
Qed.

Lemma setStatusMessage_run (env : Env) (message : string) (w : World) :
  let w' := snd (setStatusMessage env message w) in
  inhibitorHandles w' = inhibitorHandles w /\
  inhibitorsActive w' = inhibitorsActive w /\
  busTrace w' = busTrace w /\
  callLog w' = callLog w /\
  lastQbusError w' = message /\
  debugLoggingEnabled w' = debugLoggingEnabled w /\
  terminationRequested w' = terminationRequested w /\
  acquireRequested w' = acquireRequested w /\
  releaseRequested w' = releaseRequested w /\
  clock w' = S (clock w) /\
  statusFile w' = publishedFile env (clock w) (set_lastQbusError message w) /\
  stdout w' =
    (stdout w ++ debugLines w (message :: openFailure env (clock w)))%list.
Proof.
  destruct w as [h dbg act t a r msg file out tr clk log].
  exec; exec_done.
Qed.


(** ** Invariants of the loop *)

Lemma deliver_stable (I : World -> Prop) :
  (forall sig, stable I (handleSignal sig)) ->
  forall sigs, stable I (deliver sigs).
Proof.
  intros H sigs. induction sigs as [|sig sigs IH]; cbn [deliver].
  - apply stable_ret.
  - apply stable_bind; [apply H | intro; exact IH].
Qed.

Lemma pollingLoop_stable (env : Env) (I : World -> Prop) :
  (forall sig, stable I (handleSignal sig)) ->
  stable I (acquireBlock env) ->
  stable I (releaseBlock env) ->
  forall ticks, stable I (pollingLoop env ticks).
Proof.
  intros Hs Ha Hr ticks. induction ticks as [|t ticks IH]; cbn [pollingLoop].
  - apply stable_ret.
  - repeat stable_step idtac;
      first [apply deliver_stable, Hs | exact Ha | exact Hr | exact IH].
Qed.

Lemma enterInhibitorLoop_stable (env : Env) (I : World -> Prop) :
  (forall sig, stable I (handleSignal sig)) ->
  stable I (acquireInhibitors env) ->
  (forall message, stable I (logDebug message)) ->
  stable I (acquireBlock env) ->
  stable I (releaseBlock env) ->
  forall ticks, stable I (enterInhibitorLoop env ticks).
Proof.
  intros Hs Hi Hl Ha Hr ticks. unfold enterInhibitorLoop.
  repeat stable_step idtac;
    first [exact Hi | apply Hl | apply pollingLoop_stable; assumption].
Qed.


(** ** The active flag and the history of attempts *)

Lemma expectedActive_snoc (log : list Call) (c : Call) :
  expectedActive (log ++ [c])%list = afterCall (expectedActive log) c.
Proof. unfold expectedActive. rewrite fold_left_app. reflexivity. Qed.

Lemma exists_last_or_nil {A : Type} (l : list A) :
  l = [] \/ exists l' x, l = (l' ++ [x])%list.
Proof.
  destruct l as [|a l] using rev_ind; [left; reflexivity|].
  right. exists l, a. reflexivity.
Qed.

Lemma snoc_split {A : Type} (before after log : list A) (x c : A) :
  (before ++ x :: after = log ++ [c])%list ->
  (after = [] /\ x = c /\ before = log) \/
  (exists after', after = after' ++ [c] /\ log = before ++ x :: after')%list.
Proof.
  intro H. destruct (exists_last_or_nil after) as [-> | (after' & y & ->)].
  - left. apply app_inj_tail in H. destruct H; auto.
  - right. exists after'.
    change (before ++ x :: after' ++ [y])%list
      with (before ++ (x :: after') ++ [y])%list in H.
    rewrite app_assoc in H. apply app_inj_tail in H. destruct H as [H1 H2].
    subst. split; reflexivity.
Qed.

Lemma lastAttemptHolds_nil : ~ lastAttemptHolds [].
Proof.
  intros (before & after & H & _). destruct before; discriminate H.
Qed.

Lemma lastAttemptHolds_snoc (log : list Call) (c : Call) :
  lastAttemptHolds (log ++ [c])%list <->
  (c = CallAttempt true true true \/ (~ settles c /\ lastAttemptHolds log)).
Proof.
  split.
  - intros (before & after & H & Hafter). symmetry in H.
    apply snoc_split in H.
    destruct H as [(Ha & Hx & Hb) | (after' & Ha & Hl)].
    + left. symmetry. exact Hx.
    + right. subst after. split.
      * apply Hafter. apply in_or_app. right. left. reflexivity.
      * exists before, after'. split; [exact Hl|].
        intros c' Hc'. apply Hafter. apply in_or_app. left. exact Hc'.
  - intros [Hc | (Hc & before & after & H & Hafter)].
    + subst c. exists log, []. split; [reflexivity|]. intros c [].
    + exists before, (after ++ [c])%list. split.
      * rewrite H. rewrite <- app_assoc. reflexivity.
      * intros c' Hc'. apply in_app_or in Hc'. destruct Hc' as [Hc'|[Hc'|[]]].
        -- apply Hafter, Hc'.
        -- subst c'. exact Hc.
Qed.

Lemma expectedActive_spec (log : list Call) :
  expectedActive log = true <-> lastAttemptHolds log.
Proof.
  induction log as [|c log IH] using rev_ind.
  - split; [discriminate | intro H; destruct (lastAttemptHolds_nil H)].
  - rewrite expectedActive_snoc, lastAttemptHolds_snoc.
    destruct c as [| what | screen idle sleep |]; cbn.
    + rewrite IH. split; [intro H; right; split; [exact (fun f => f) | exact H]
                         | intros [H|[_ H]]; [discriminate H | exact H]].
    + rewrite IH. split; [intro H; right; split; [exact (fun f => f) | exact H]
                         | intros [H|[_ H]]; [discriminate H | exact H]].
    + split.
      * intro H. left. destruct screen, idle, sleep; try discriminate H; reflexivity.
      * intros [H|[H _]]; [injection H as -> -> ->; reflexivity | destruct (H Logic.I)].
    + split; [discriminate | intros [H|[H _]]; [discriminate H | destruct (H Logic.I)]].
Qed.

Section FlagAndLog.

Variable env : Env.

Ltac log_solver :=
  unfold flagMatchesLog, expectedActive; intros; cbn in *;
  rewrite ?fold_left_app; cbn; auto.

Lemma logDebug_flagMatchesLog (message : string) :
  stable flagMatchesLog (logDebug message).
Proof. stable_tac log_solver. Qed.

Lemma updateStatusFile_flagMatchesLog :
  stable flagMatchesLog (updateStatusFile env).
Proof. stable_tac log_solver. Qed.

Lemma setStatusMessage_flagMatchesLog (message : string) :
  stable flagMatchesLog (setStatusMessage env message).
Proof. stable_tac log_solver. Qed.

Lemma acquireScreenSaver_flagMatchesLog :
  stable flagMatchesLog (acquireScreenSaverInhibitor env).
Proof. stable_tac log_solver. Qed.

Lemma acquireLogin1_flagMatchesLog (what : string) (fdOut : FdRef) :
  stable flagMatchesLog (acquireLogin1Inhibitor env what fdOut).
Proof. stable_tac log_solver. Qed.

Lemma handleSignal_flagMatchesLog (sig : Signal) :
  stable flagMatchesLog (handleSignal sig).
Proof. destruct sig; stable_tac log_solver. Qed.

Lemma deliver_flagMatchesLog (sigs : list Signal) :
  stable flagMatchesLog (deliver sigs).
Proof.
  induction sigs as [|sig sigs IH]; cbn [deliver].
  - apply stable_ret.
  - apply stable_bind; [apply handleSignal_flagMatchesLog | intro; exact IH].
Qed.

Lemma releaseScreenSaver_logSaysInactive :
  stable logSaysInactive (releaseScreenSaverInhibitor env).
Proof. stable_tac ltac:(unfold logSaysInactive; intros; cbn in *; auto). Qed.

Lemma releaseLogin1Fd_logSaysInactive (fdRef : FdRef) (what : string) :
  stable logSaysInactive (releaseLogin1Fd fdRef what).
Proof. stable_tac ltac:(unfold logSaysInactive; intros; cbn in *; auto). Qed.

Lemma cleanupInhibitors_flagMatchesLog :
  establishes (cleanupInhibitors env) flagMatchesLog.
Proof.
  unfold cleanupInhibitors.
  apply hoare_bind with (R := fun _ => logSaysInactive).
  { apply hoare_modify. intros w _. unfold logSaysInactive. cbn.
    rewrite expectedActive_snoc. reflexivity. }
  intro. eapply hoare_bind; [apply releaseScreenSaver_logSaysInactive|].
  intro. eapply hoare_bind; [apply releaseLogin1Fd_logSaysInactive|].
  intro. eapply hoare_bind; [apply releaseLogin1Fd_logSaysInactive|].
  intro. apply hoare_bind with (R := fun _ => flagMatchesLog).
  { apply hoare_modify. intros w H. unfold flagMatchesLog. cbn.
    symmetry. exact H. }
  intro. apply as_stable.
  repeat stable_step log_solver; apply updateStatusFile_flagMatchesLog.
Qed.

Lemma acquireInhibitors_flagMatchesLog :
  stable flagMatchesLog (acquireInhibitors env).
Proof.
  unfold acquireInhibitors.
  apply stable_bind; [apply acquireScreenSaver_flagMatchesLog | intro screen].
  apply stable_bind; [apply acquireLogin1_flagMatchesLog | intro idle].
  apply stable_bind; [apply acquireLogin1_flagMatchesLog | intro sleep].
  apply hoare_bind
    with (R := fun _ w => inhibitorsActive w = screen && idle && sleep).
  { apply hoare_modify. intros w _. reflexivity. }
  intro. apply hoare_bind with (R := fun _ => flagMatchesLog).
  { apply hoare_modify. intros w H. unfold flagMatchesLog. cbn.
    rewrite expectedActive_snoc. exact H. }
  intro. apply as_stable.
  repeat stable_step log_solver;
    first [apply setStatusMessage_flagMatchesLog
          | apply updateStatusFile_flagMatchesLog].
Qed.

Lemma acquireBlock_flagMatchesLog :
  stable flagMatchesLog (acquireBlock env).
Proof.
  unfold acquireBlock.
  repeat stable_step log_solver;
    first [apply acquireInhibitors_flagMatchesLog
          | apply logDebug_flagMatchesLog
          | apply updateStatusFile_flagMatchesLog].
Qed.

Lemma releaseBlock_flagMatchesLog :
  stable flagMatchesLog (releaseBlock env).
Proof.
  unfold releaseBlock.
  repeat stable_step log_solver;
    first [apply stable_of_establishes, cleanupInhibitors_flagMatchesLog
          | apply setStatusMessage_flagMatchesLog].
Qed.

Lemma pollingLoop_flagMatchesLog (ticks : list Tick) :
  stable flagMatchesLog (pollingLoop env ticks).
Proof.
  induction ticks as [|t ticks IH]; cbn [pollingLoop].
  - apply stable_ret.
  - repeat stable_step log_solver;
      first [apply deliver_flagMatchesLog
            | apply acquireBlock_flagMatchesLog
            | apply releaseBlock_flagMatchesLog
            | exact IH].
Qed.

Lemma exitInhibitorLoop_flagMatchesLog :
  stable flagMatchesLog (exitInhibitorLoop env).
Proof.
  unfold exitInhibitorLoop.
  repeat stable_step log_solver;
    first [apply logDebug_flagMatchesLog
          | apply stable_of_establishes, cleanupInhibitors_flagMatchesLog
          | apply setStatusMessage_flagMatchesLog].
Qed.

Lemma enterInhibitorLoop_flagMatchesLog (ticks : list Tick) :
  stable flagMatchesLog (enterInhibitorLoop env ticks).
Proof.
  unfold enterInhibitorLoop.
  repeat stable_step log_solver;
    first [apply acquireInhibitors_flagMatchesLog
          | apply logDebug_flagMatchesLog
          | apply pollingLoop_flagMatchesLog].
Qed.

Lemma runInhibitorLoop_flagMatchesLog (ticks : list Tick) :
  stable flagMatchesLog (runInhibitorLoop env ticks).
Proof.
  unfold runInhibitorLoop.
  repeat stable_step log_solver;
    first [apply enterInhibitorLoop_flagMatchesLog
          | apply exitInhibitorLoop_flagMatchesLog].
Qed.

End FlagAndLog.

(** C1. Whatever the environment answers and whatever signals arrive, after
    the initial attempt and any number of iterations of the loop (and the
    cleanup on exit when the loop was left), [inhibitorsActive] is true if
    and only if the most recent run of [acquireInhibitors] succeeded on the
    screen saver, idle and sleep leases and no [cleanupInhibitors] (release
    on request or cleanup on exit) ran after it. *)
Theorem active_iff_last_attempt_holds
    (env : Env) (debug : bool) (file : option string) (ticks : list Tick) :
  let w := snd (runInhibitorLoop env ticks (initialWorld debug file)) in
  inhibitorsActive w = true <-> lastAttemptHolds (callLog w).
Proof.
  intro w. rewrite <- expectedActive_spec.
  assert (H : flagMatchesLog w).
  { apply runInhibitorLoop_flagMatchesLog. reflexivity. }
  unfold flagMatchesLog in H. rewrite H. reflexivity.
Qed.

(** ** The status publisher *)

Lemma sanitizeStatusMessage_mapString (message : string) :
  sanitizeStatusMessage message = mapString spaceOut message.
Proof.
  unfold sanitizeStatusMessage.
  induction message as [|c rest IH]; [reflexivity|].
  cbn [replace mapString]. rewrite IH. f_equal.
  unfold spaceOut. destruct (Ascii.eqb c newline) eqn:E; cbn.
  - reflexivity.
  - reflexivity.
Qed.

Lemma occurs_append (c : ascii) (s t : string) :
  occurs c (s ++ t) = occurs c s || occurs c t.
Proof.
  induction s as [|c' s IH]; [reflexivity|].
  cbn. rewrite IH. apply orb_assoc.
Qed.

Lemma occurs_mapString_spaceOut (message : string) :
  occurs newline (mapString spaceOut message) = false /\
  occurs carriage_return (mapString spaceOut message) = false.
Proof.
  induction message as [|c rest [IHn IHr]]; [split; reflexivity|].
  cbn [mapString occurs]. rewrite IHn, IHr, !orb_false_r.
  unfold spaceOut.
  destruct (Ascii.eqb c newline) eqn:En; [split; reflexivity|].
  destruct (Ascii.eqb c carriage_return) eqn:Er; [split; reflexivity|].
  cbn. split; assumption.
Qed.

Lemma occurs_string_of_uint (d : Decimal.uint) :
  occurs newline (NilEmpty.string_of_uint d) = false.
Proof. induction d; cbn; auto. Qed.

Lemma occurs_to_string (z : Z) : occurs newline (to_string z) = false.
Proof.
  unfold to_string, NilZero.string_of_int, NilZero.string_of_uint.
  destruct (Z.to_int z) as [d|d]; destruct d;
    cbn [occurs]; rewrite ?occurs_string_of_uint; reflexivity.
Qed.

Lemma append_assoc (s t u : string) : (s ++ t) ++ u = s ++ t ++ u.
Proof. induction s as [|c s IH]; [reflexivity|]. cbn. rewrite IH. reflexivity. Qed.

(** [std::getline] returns a line without newline whole, and goes on after
    the newline that ends it. *)
Lemma getlines_line (line rest : string) :
  occurs newline line = false ->
  Ui.getlines (line ++ String newline rest) = line :: Ui.getlines rest.
Proof.
  induction line as [|c line IH]; intro H.
  - reflexivity.
  - cbn in H. apply orb_false_elim in H. destruct H as [Hc Hl].
    cbn [append Ui.getlines]. rewrite Hc, (IH Hl). reflexivity.
Qed.

Lemma getlines_field (key value rest : string) :
  occurs newline (key ++ value) = false ->
  Ui.getlines (key ++ value ++ nl ++ rest) = (key ++ value) :: Ui.getlines rest.
Proof.
  intro H. rewrite <- append_assoc. apply getlines_line. exact H.
Qed.

Lemma getlines_statusText (pid : Z) (active debug : bool) (message : string) :
  Ui.getlines (statusText pid active debug message) =
  [ "pid=" ++ to_string pid;
    "active=" ++ flagDigit active;
    "debug=" ++ flagDigit debug;
    "message=" ++ sanitizeStatusMessage message ].
Proof.
  unfold statusText.
  rewrite getlines_field.
  2:{ rewrite occurs_append, occurs_to_string. reflexivity. }
  f_equal.
  rewrite getlines_field by (destruct active; reflexivity).
  f_equal; [destruct active; reflexivity|].
  rewrite getlines_field by (destruct debug; reflexivity).
  f_equal; [destruct debug; reflexivity|].
  change nl with (nl ++ "").
  rewrite getlines_field.
  2:{ rewrite occurs_append, sanitizeStatusMessage_mapString.
      rewrite (proj1 (occurs_mapString_spaceOut message)). reflexivity. }
  reflexivity.
Qed.

Lemma updateStatusFile_opened (env : Env) (w : World) :
  env_open_status env (clock w) = true ->
  snd (updateStatusFile env w) =
  set_statusFile
    (Some (statusText (env_pid env) (inhibitorsActive w)
             (debugLoggingEnabled w) (lastQbusError w)))
    (set_clock (S (clock w)) w).
Proof.
  intro H. unfold updateStatusFile. rewrite run_bind. cbn. rewrite H.
  reflexivity.
Qed.

(** C8. For every message and in every state, when the status file can be
    opened [updateStatusFile] leaves in it exactly the four lines
    [pid=<pid>], [active=<0 or 1>], [debug=<0 or 1>] and
    [message=<sanitized text>], each ended by a newline, where the
    sanitized text is the message with every newline and carriage return
    replaced by a space, so that it lies on a single line. *)
Theorem status_file_is_four_lines
    (env : Env) (w : World) (message : string) :
  env_open_status env (clock w) = true ->
  let w' := snd (updateStatusFile env (set_lastQbusError message w)) in
  let sanitized := mapString spaceOut message in
  statusFile w' =
    Some ("pid=" ++ to_string (env_pid env) ++ nl ++
          "active=" ++ flagDigit (inhibitorsActive w) ++ nl ++
          "debug=" ++ flagDigit (debugLoggingEnabled w) ++ nl ++
          "message=" ++ sanitized ++ nl) /\
  (exists text, statusFile w' = Some text /\
     Ui.getlines text =
       [ "pid=" ++ to_string (env_pid env);
         "active=" ++ flagDigit (inhibitorsActive w);
         "debug=" ++ flagDigit (debugLoggingEnabled w);
         "message=" ++ sanitized ]) /\
  occurs newline sanitized = false /\
  occurs carriage_return sanitized = false.
Proof.
  intros H w' sanitized. subst w' sanitized.
  rewrite updateStatusFile_opened by exact H. cbn [statusFile set_statusFile
    set_clock set_lastQbusError inhibitorsActive debugLoggingEnabled
    lastQbusError].
  repeat split.
  - unfold statusText. rewrite sanitizeStatusMessage_mapString.
    destruct (inhibitorsActive w), (debugLoggingEnabled w); reflexivity.
  - eexists. split; [reflexivity|].
    rewrite getlines_statusText, sanitizeStatusMessage_mapString. reflexivity.
  - apply occurs_mapString_spaceOut.
  - apply occurs_mapString_spaceOut.
Qed.

Lemma status_file_is_four_lines_witness :
  let w := initialWorld true None in
  let message := "first line" ++ nl ++ "second line" in
  env_open_status envAllOk (clock w) = true /\
  statusFile (snd (updateStatusFile envAllOk (set_lastQbusError message w))) =
    Some ("pid=4242" ++ nl ++ "active=0" ++ nl ++ "debug=1" ++ nl ++
          "message=first line second line" ++ nl).
Proof.
  intros w message. split; [reflexivity|].
  exact (proj1 (status_file_is_four_lines envAllOk w message eq_refl)).
Defined.

(** ** A request to acquire while the inhibitors are active *)

(** C3, as the code has it. When the loop finds [acquireRequested] set
    while [inhibitorsActive] is true, it clears the request and performs no
    lease operation: the handles, the flag and the status message stay as
    they are. It rewrites the status file (when the file can be opened)
    with this unchanged state, and the notice that the request was ignored
    goes to the debug log alone, hence nowhere unless debug logging is
    on. *)
Theorem acquire_request_while_active (env : Env) (w : World) :
  acquireRequested w = true ->
  inhibitorsActive w = true ->
  let w' := snd (acquireBlock env w) in
  acquireRequested w' = false /\
  inhibitorHandles w' = inhibitorHandles w /\
  inhibitorsActive w' = true /\
  busTrace w' = busTrace w /\
  callLog w' = callLog w /\
  lastQbusError w' = lastQbusError w /\
  statusFile w' = publishedFile env (clock w) w /\
  stdout w' =
    (stdout w
     ++ debugLines w
          ("Acquire request ignored; inhibitors already active."
           :: openFailure env (clock w)))%list.
Proof.
  destruct w as [h dbg act t a r msg file out tr clk log].
  cbn [acquireRequested inhibitorsActive]. intros -> ->.
  exec; exec_done.
Qed.


Lemma acquire_request_while_active_witness :
  let w := set_acquireRequested true startedWorld in
  acquireRequested w = true /\ inhibitorsActive w = true /\
  lastQbusError (snd (acquireBlock envAllOk w))
  = "Inhibitors active (screen saver, idle, sleep)." /\
  stdout (snd (acquireBlock envAllOk w)) = [].
Proof.
  intro w.
  destruct (acquire_request_while_active envAllOk w eq_refl eq_refl)
    as (_ & _ & _ & _ & _ & Hmsg & _ & Hout).
  split; [reflexivity|]. split; [reflexivity|].
  split; [exact Hmsg | exact Hout].
Defined.

(** C3 as the specification words it fails: after a start without debug
    logging on which the three leases were acquired, a request to acquire
    produces no message at all. The status message is still the one of the
    acquisition, nothing is printed, and neither the message nor the status
    file says "already active". *)
Lemma acquire_noop_message_counterexample :
  let w := snd (enterInhibitorLoop envAllOk [] (initialWorld false None)) in
  let w' := snd (enterInhibitorLoop envAllOk [mkTick [] [SIGUSR1] []]
                   (initialWorld false None)) in
  inhibitorsActive w = true /\
  lastQbusError w' = "Inhibitors active (screen saver, idle, sleep)." /\
  hasInfix "already active" (lastQbusError w') = false /\
  stdout w' = stdout w /\
  statusFile w' =
    Some (statusText 4242 true false
            "Inhibitors active (screen saver, idle, sleep).") /\
  (forall text, statusFile w' = Some text ->
                hasInfix "already active" text = false).
Proof.
  vm_compute. repeat split; try reflexivity.
  intros text H. injection H as <-. reflexivity.
Qed.

(** ** A request to release *)

Lemma releaseBlock_inactive (env : Env) (w : World) :
  releaseRequested w = true -> inhibitorsActive w = false ->
  releaseBlock env w =
  setStatusMessage env "Inhibitors already inactive."
    (set_releaseRequested false w).
Proof.
  intros Hr Ha. unfold releaseBlock. cbv [bind gets modify].
  rewrite Hr. cbn [inhibitorsActive set_releaseRequested]. rewrite Ha.
  reflexivity.
Qed.

Lemma releaseBlock_active (env : Env) (w : World) :
  releaseRequested w = true -> inhibitorsActive w = true ->
  releaseBlock env w =
  setStatusMessage env "Inhibitors released by user request."
    (snd (cleanupInhibitors env (set_releaseRequested false w))).
Proof.
  intros Hr Ha. unfold releaseBlock. cbv [bind gets modify].
  rewrite Hr. cbn [inhibitorsActive set_releaseRequested]. rewrite Ha.
  destruct (cleanupInhibitors env (set_releaseRequested false w)).
  reflexivity.
Qed.

(** C4, as the code has it. When the loop finds [releaseRequested] set it
    clears the request. While inactive it releases nothing: the handles
    and the flag stay as they are, no lease operation happens and the
    status message becomes "Inhibitors already inactive.". While active it
    runs [cleanupInhibitors]: the descriptors held are closed, both
    connections are dropped, the ScreenSaver.UnInhibit request is sent
    when there is a cookie and the request can be built, the flag becomes
    false and the status message becomes "Inhibitors released by user
    request."; the message is in the status file when the file could be
    opened. *)
Theorem release_request (env : Env) (w : World) :
  releaseRequested w = true ->
  let w' := snd (releaseBlock env w) in
  releaseRequested w' = false /\
  (inhibitorsActive w = false ->
   inhibitorHandles w' = inhibitorHandles w /\
   inhibitorsActive w' = false /\
   busTrace w' = busTrace w /\
   callLog w' = callLog w /\
   lastQbusError w' = "Inhibitors already inactive." /\
   statusFile w' =
     publishedFile env (clock w)
       (set_lastQbusError "Inhibitors already inactive." w)) /\
  (inhibitorsActive w = true ->
   inhibitorHandles w' = releasedHandles env w /\
   inhibitorsActive w' = false /\
   busTrace w' = (busTrace w ++ releaseActions env w)%list /\
   callLog w' = (callLog w ++ [CallCleanup])%list /\
   lastQbusError w' = "Inhibitors released by user request." /\
   (env_open_status env (Nat.pred (clock w')) = true ->
    statusFile w' =
      Some (statusText (env_pid env) false (debugLoggingEnabled w)
              "Inhibitors released by user request."))).
Proof.
  intros Hr w'. subst w'.
  destruct (inhibitorsActive w) eqn:Ha.
  - rewrite (releaseBlock_active env w Hr Ha).
    set (w0 := set_releaseRequested false w).
    pose proof (cleanupInhibitors_run env w0) as Hc. cbv zeta in Hc.
    set (w1 := snd (cleanupInhibitors env w0)) in *.
    pose proof (setStatusMessage_run env
                  "Inhibitors released by user request." w1) as Hs.
    cbv zeta in Hs.
    set (w2 := snd (setStatusMessage env _ w1)) in *.
    destruct Hc as (Hc1 & Hc2 & Hc3 & Hc4 & Hc5 & Hc6 & Hc7 & Hc8 & Hc9 & Hc10 & Hc11).
    destruct Hs as (Hs1 & Hs2 & Hs3 & Hs4 & Hs5 & Hs6 & Hs7 & Hs8 & Hs9 & Hs10 & Hs11 & Hs12).
    split; [rewrite Hs9, Hc9; reflexivity|].
    split; [discriminate|]. intros _.
    split; [rewrite Hs1, Hc1; reflexivity|].
    split; [rewrite Hs2, Hc2; reflexivity|].
    split; [rewrite Hs3, Hc3; reflexivity|].
    split; [rewrite Hs4, Hc4; reflexivity|].
    split; [exact Hs5|].
    intro Hopen. rewrite Hs11. unfold publishedFile.
    rewrite Hs10 in Hopen. cbn [Nat.pred] in Hopen. rewrite Hopen.
    cbn [inhibitorsActive debugLoggingEnabled lastQbusError set_lastQbusError].
    rewrite Hc2, Hc6. reflexivity.
  - rewrite (releaseBlock_inactive env w Hr Ha).
    pose proof (setStatusMessage_run env "Inhibitors already inactive."
                  (set_releaseRequested false w)) as Hs.
    cbv zeta in Hs.
    destruct Hs as (Hs1 & Hs2 & Hs3 & Hs4 & Hs5 & Hs6 & Hs7 & Hs8 & Hs9 & Hs10 & Hs11 & Hs12).
    split; [exact Hs9|].
    split; [|discriminate]. intros _.
    split; [exact Hs1|].
    split; [rewrite Hs2; exact Ha|].
    split; [exact Hs3|].
    split; [exact Hs4|].
    split; [exact Hs5|].
    exact Hs11.
Qed.

Lemma release_request_witness :
  (let w := set_releaseRequested true startedWorld in
   releaseRequested w = true /\ inhibitorsActive w = true /\
   lastQbusError (snd (releaseBlock envAllOk w))
   = "Inhibitors released by user request.") /\
  (let w := set_releaseRequested true (initialWorld false None) in
   releaseRequested w = true /\ inhibitorsActive w = false /\
   lastQbusError (snd (releaseBlock envAllOk w))
   = "Inhibitors already inactive.").
Proof.
  split; intro w.
  - destruct (release_request envAllOk w eq_refl) as (_ & _ & H).
    destruct (H eq_refl) as (_ & _ & _ & _ & Hmsg & _).
    split; [reflexivity|]. split; [reflexivity|]. exact Hmsg.
  - destruct (release_request envAllOk w eq_refl) as (_ & H & _).
    destruct (H eq_refl) as (_ & _ & _ & _ & Hmsg & _).
    split; [reflexivity|]. split; [reflexivity|]. exact Hmsg.
Defined.

(** C4 as the specification words it fails: not every lease is released
    on request. When libdbus cannot build the UnInhibit message, the
    release on request sends no ScreenSaver.UnInhibit and keeps the cookie,
    and still reports that the inhibitors were released. *)
Lemma release_keeps_screen_saver_lease_counterexample :
  let w := snd (enterInhibitorLoop envOutOfMemory [] (initialWorld false None)) in
  let w' := snd (enterInhibitorLoop envOutOfMemory [mkTick [] [] [SIGUSR2]]
                   (initialWorld false None)) in
  inhibitorsActive w = true /\
  screenSaverCookie (inhibitorHandles w) = 77 /\
  inhibitorsActive w' = false /\
  lastQbusError w' = "Inhibitors released by user request." /\
  screenSaverCookie (inhibitorHandles w') = 77 /\
  existsb isUnInhibit (busTrace w') = false.
Proof. vm_compute. repeat split; reflexivity. Qed.

(** ** Termination *)

Ltac message_solver :=
  unfold notExitMessage, exitMessage; intros; cbn in *;
  solve [assumption | discriminate | congruence].

Lemma enterInhibitorLoop_notExitMessage (env : Env) (ticks : list Tick) :
  stable notExitMessage (enterInhibitorLoop env ticks).
Proof.
  apply enterInhibitorLoop_stable.
  - intro sig. destruct sig; stable_tac message_solver.
  - stable_tac message_solver.
  - intro. stable_tac message_solver.
  - stable_tac message_solver.
  - stable_tac message_solver.
Qed.

Lemma pollingLoop_exit (env : Env) (t : Tick) (rest : list Tick) (w : World) :
  terminationRequested (snd (deliver (beforeLoopTest t) w)) = true ->
  pollingLoop env (t :: rest) w = (true, snd (deliver (beforeLoopTest t) w)).
Proof.
  intro H. cbn [pollingLoop]. cbv [bind gets].
  destruct (deliver (beforeLoopTest t) w) as [[] w1]. cbn [snd] in *.
  rewrite H. reflexivity.
Qed.

Lemma exitInhibitorLoop_run (env : Env) (w : World) :
  let w' := snd (exitInhibitorLoop env w) in
  inhibitorHandles w' = releasedHandles env w /\
  inhibitorsActive w' = false /\
  busTrace w' = (busTrace w ++ releaseActions env w)%list /\
  callLog w' = (callLog w ++ [CallCleanup])%list /\
  lastQbusError w' =
    (if inhibitorsActive w then exitMessage else lastQbusError w) /\
  (inhibitorsActive w = false ->
   statusFile w' =
     publishedFile env (Nat.pred (clock w')) (set_inhibitorsActive false w)).
Proof.
  unfold exitInhibitorLoop. rewrite run_bind, logDebug_run. cbn [fst snd].
  set (w0 := if debugLoggingEnabled w then _ else w).
  assert (E : inhibitorHandles w0 = inhibitorHandles w /\
              inhibitorsActive w0 = inhibitorsActive w /\
              busTrace w0 = busTrace w /\ callLog w0 = callLog w /\
              lastQbusError w0 = lastQbusError w /\
              debugLoggingEnabled w0 = debugLoggingEnabled w /\
              clock w0 = clock w /\ statusFile w0 = statusFile w).
  { subst w0. destruct (debugLoggingEnabled w) eqn:E; cbn; rewrite ?E; repeat split. }
  destruct E as (E1 & E2 & E3 & E4 & E5 & E6 & E7 & E8).
  cbv [bind gets]. cbn [fst snd].
  pose proof (cleanupInhibitors_run env w0) as Hc. cbv zeta in Hc.
  destruct (cleanupInhibitors env w0) as [[] w1]. cbn [snd] in Hc.
  destruct Hc as (Hc1 & Hc2 & Hc3 & Hc4 & Hc5 & Hc6 & Hc7 & Hc8 & Hc9 & Hc10 & Hc11).
  assert (Hh : releasedHandles env w0 = releasedHandles env w).
  { unfold releasedHandles, uninhibitSent. rewrite E1, E7. reflexivity. }
  assert (Ha : releaseActions env w0 = releaseActions env w).
  { unfold releaseActions, screenSaverReleaseActions. rewrite E1, E7. reflexivity. }
  rewrite E2. destruct (inhibitorsActive w) eqn:Hact.
  - pose proof (setStatusMessage_run env
                  "Inhibitors released (process exiting)." w1) as Hs.
    cbv zeta in Hs.
    destruct Hs as (Hs1 & Hs2 & Hs3 & Hs4 & Hs5 & _).
    rewrite Hs1, Hs2, Hs3, Hs4, Hs5, Hc1, Hc2, Hc3, Hc4, Hh, Ha, E3, E4.
    repeat split; try reflexivity. discriminate.
  - cbn [snd skip ret]. rewrite Hc1, Hc2, Hc3, Hc4, Hc5, Hh, Ha, E3, E4, E5.
    repeat split; try reflexivity. intros _. rewrite Hc11.
    unfold publishedFile.
    cbn [inhibitorsActive debugLoggingEnabled lastQbusError statusFile
         set_inhibitorsActive].
    rewrite E5, E6, E8. reflexivity.
Qed.

(** C5. When the loop finds [terminationRequested] set it is left at once.
    If the inhibitors are inactive at that moment, [runInhibitorLoop] still
    runs [cleanupInhibitors] over the handles there are (descriptors kept
    from a partial acquisition are closed, the connections dropped) and
    returns; the status message is left as it was, it is the one that the
    last publication writes, and it is not "Inhibitors released (process
    exiting).". That message is set exactly when the inhibitors were active
    when the loop was left. *)
Theorem termination_while_inactive
    (env : Env) (debug : bool) (file : option string) (ticks : list Tick) :
  let w0 := initialWorld debug file in
  let w1 := snd (enterInhibitorLoop env ticks w0) in
  let w' := snd (runInhibitorLoop env ticks w0) in
  fst (enterInhibitorLoop env ticks w0) = true ->
  inhibitorsActive w1 = false ->
  fst (runInhibitorLoop env ticks w0) = true /\
  callLog w' = (callLog w1 ++ [CallCleanup])%list /\
  busTrace w' = (busTrace w1 ++ releaseActions env w1)%list /\
  inhibitorHandles w' = releasedHandles env w1 /\
  inhibitorsActive w' = false /\
  lastQbusError w' = lastQbusError w1 /\
  lastQbusError w' <> exitMessage /\
  statusFile w' = publishedFile env (Nat.pred (clock w')) w1 /\
  (forall t rest w,
     terminationRequested (snd (deliver (beforeLoopTest t) w)) = true ->
     fst (pollingLoop env (t :: rest) w) = true) /\
  (forall w,
     lastQbusError (snd (exitInhibitorLoop env w)) =
     if inhibitorsActive w then exitMessage else lastQbusError w).
Proof.
  intros w0 w1 w' Hexit Hinactive.
  assert (Hrun : runInhibitorLoop env ticks w0
                 = (true, snd (exitInhibitorLoop env w1))).
  { unfold runInhibitorLoop. rewrite run_bind. fold w1. rewrite Hexit.
    rewrite run_bind. reflexivity. }
  subst w'. rewrite Hrun. cbn [fst snd].
  pose proof (exitInhibitorLoop_run env w1) as He. cbv zeta in He.
  destruct He as (He1 & He2 & He3 & He4 & He5 & He6).
  rewrite Hinactive in He5.
  assert (Hmsg : notExitMessage w1).
  { apply enterInhibitorLoop_notExitMessage. unfold notExitMessage, w0.
    cbn. unfold exitMessage. discriminate. }
  split; [reflexivity|].
  split; [exact He4|]. split; [exact He3|]. split; [exact He1|].
  split; [exact He2|]. split; [exact He5|].
  split; [rewrite He5; exact Hmsg|].
  split.
  { rewrite (He6 Hinactive). unfold publishedFile.
    cbn [inhibitorsActive debugLoggingEnabled lastQbusError statusFile
         set_inhibitorsActive]. rewrite Hinactive. reflexivity. }
  split.
  { intros t rest w H. rewrite (pollingLoop_exit env t rest w H). reflexivity. }
  intro w. apply exitInhibitorLoop_run.
Qed.

Lemma termination_while_inactive_witness :
  let w0 := initialWorld false None in
  let ticks := [mkTick [SIGTERM] [] []] in
  fst (enterInhibitorLoop envNoScreenSaver ticks w0) = true /\
  inhibitorsActive (snd (enterInhibitorLoop envNoScreenSaver ticks w0)) = false /\
  lastQbusError (snd (runInhibitorLoop envNoScreenSaver ticks w0)) <> exitMessage.
Proof.
  intros w0 ticks.
  assert (H1 : fst (enterInhibitorLoop envNoScreenSaver ticks w0) = true)
    by (vm_compute; reflexivity).
  assert (H2 : inhibitorsActive
                 (snd (enterInhibitorLoop envNoScreenSaver ticks w0)) = false)
    by (vm_compute; reflexivity).
  split; [exact H1|]. split; [exact H2|].
  exact (proj1 (proj2 (proj2 (proj2 (proj2 (proj2 (proj2
           (termination_while_inactive envNoScreenSaver false None ticks
              H1 H2)))))))).
Defined.

(** ** Cleanup twice *)

Lemma closeActions_releasedFd (fd : Z) : closeActions (releasedFd fd) = [].
Proof.
  unfold closeActions, releasedFd. destruct (0 <=? fd) eqn:E; [reflexivity|].
  rewrite E. reflexivity.
Qed.

Lemma releasedFd_twice (fd : Z) : releasedFd (releasedFd fd) = releasedFd fd.
Proof.
  unfold releasedFd. destruct (0 <=? fd) eqn:E; [reflexivity|].
  rewrite E. reflexivity.
Qed.

Lemma releasedFd_spec (fd : Z) :
  releasedFd fd < 0 /\ (-1 <= fd -> releasedFd fd = -1).
Proof. unfold releasedFd. destruct (Z.leb_spec 0 fd); split; lia. Qed.

(** C6, as the code has it. Releasing a descriptor field that holds -1
    closes nothing and changes nothing. After [cleanupInhibitors] both
    connections are null, the flag is false and both descriptor fields are
    negative, -1 when they held a descriptor or -1; the cookie is 0 when
    the UnInhibit request was sent, and else keeps its value (0 when no
    lease was held; the cookie itself when there is no session connection
    or libdbus could not build the request). In every case a second
    [cleanupInhibitors] performs no operation on the buses or descriptors
    and leaves the handles and the flag as they are. *)
Theorem cleanup_idempotent (env : Env) (w : World) :
  let w1 := snd (cleanupInhibitors env w) in
  let w2 := snd (cleanupInhibitors env w1) in
  (forall fdRef what w0,
     get_fd fdRef (inhibitorHandles w0) = -1 ->
     releaseLogin1Fd fdRef what w0 = (tt, w0)) /\
  sessionConnection (inhibitorHandles w1) = None /\
  systemConnection (inhibitorHandles w1) = None /\
  inhibitorsActive w1 = false /\
  idleFd (inhibitorHandles w1) < 0 /\
  sleepFd (inhibitorHandles w1) < 0 /\
  (-1 <= idleFd (inhibitorHandles w) -> idleFd (inhibitorHandles w1) = -1) /\
  (-1 <= sleepFd (inhibitorHandles w) -> sleepFd (inhibitorHandles w1) = -1) /\
  screenSaverCookie (inhibitorHandles w1) =
    (if uninhibitSent env w then 0
     else screenSaverCookie (inhibitorHandles w)) /\
  busTrace w2 = busTrace w1 /\
  inhibitorHandles w2 = inhibitorHandles w1 /\
  inhibitorsActive w2 = false.
Proof.
  intros w1 w2.
  pose proof (cleanupInhibitors_run env w) as H1. cbv zeta in H1. fold w1 in H1.
  pose proof (cleanupInhibitors_run env w1) as H2. cbv zeta in H2. fold w2 in H2.
  destruct H1 as (Hh1 & Ha1 & _). destruct H2 as (Hh2 & Ha2 & Ht2 & _).
  destruct (releasedFd_spec (idleFd (inhibitorHandles w))) as [Hi Hi'].
  destruct (releasedFd_spec (sleepFd (inhibitorHandles w))) as [Hs Hs'].
  split.
  { intros fdRef what w0 H. apply releaseLogin1Fd_released. lia. }
  rewrite Hh1. cbn [sessionConnection systemConnection idleFd sleepFd
                    screenSaverCookie releasedHandles].
  repeat (split; [first [reflexivity | assumption]|]).
  assert (Hs1 : sessionConnection (inhibitorHandles w1) = None)
    by (rewrite Hh1; reflexivity).
  split.
  { rewrite Ht2. unfold releaseActions, screenSaverReleaseActions.
    rewrite Hs1, Hh1.
    cbn [sessionConnection systemConnection idleFd sleepFd releasedHandles
         unrefActions].
    rewrite !closeActions_releasedFd. cbn [List.app]. apply app_nil_r. }
  split; [|exact Ha2].
  rewrite Hh2. unfold releasedHandles, uninhibitSent. rewrite Hs1, Hh1.
  cbn [sessionConnection systemConnection idleFd sleepFd screenSaverCookie
       releasedHandles].
  rewrite !releasedFd_twice. reflexivity.
Qed.

(** C6 as the specification words it fails: a cleanup does not always
    reset the cookie. When libdbus cannot build the UnInhibit message on
    exit, [cleanupInhibitors] returns with the cookie of the lease still
    in the handles. *)
Lemma cleanup_keeps_cookie_counterexample :
  let w1 := snd (enterInhibitorLoop envOutOfMemory [mkTick [SIGTERM] [] []]
                   (initialWorld false None)) in
  let w' := snd (runInhibitorLoop envOutOfMemory [mkTick [SIGTERM] [] []]
                   (initialWorld false None)) in
  screenSaverCookie (inhibitorHandles w1) = 77 /\
  w' = snd (exitInhibitorLoop envOutOfMemory w1) /\
  callLog w' = (callLog w1 ++ [CallCleanup])%list /\
  screenSaverCookie (inhibitorHandles w') = 77 /\
  screenSaverCookie (inhibitorHandles w') <> 0.
Proof. vm_compute. repeat split; try reflexivity. discriminate. Qed.


(** ** Reading the status file back *)

Lemma find_field (key value : string) :
  occurs "=" key = false ->
  Ui.find "=" (key ++ String "=" value) = Some (String.length key).
Proof.
  induction key as [|c key IH]; intro H; [reflexivity|].
  cbn in H. apply orb_false_elim in H. destruct H as [Hc Hk].
  cbn [append String.length Ui.find]. rewrite Hc, (IH Hk). reflexivity.
Qed.

Lemma substr_to_field (key rest : string) :
  Ui.substr_to (String.length key) (key ++ rest) = key.
Proof.
  induction key as [|c key IH]; [destruct rest; reflexivity|].
  cbn [append String.length Ui.substr_to]. rewrite IH. reflexivity.
Qed.

Lemma substr_from_field (key : string) (c : ascii) (value : string) :
  Ui.substr_from (S (String.length key)) (key ++ String c value) = value.
Proof.
  induction key as [|c' key IH]; [reflexivity|].
  cbn [append String.length]. exact IH.
Qed.

Lemma readLine_field (key value : string) (info : Ui.UiStatus) :
  occurs "=" key = false ->
  Ui.readLine info (key ++ String "=" value) =
  if String.eqb key "active" then Ui.set_active (Ui.truthy value) info
  else if String.eqb key "debug" then Ui.set_debug (Ui.truthy value) info
  else if String.eqb key "pid" then
    match Ui.strtol value with
    | Some parsed => Ui.set_pid (Ui.to_pid_t parsed) info
    | None => info
    end
  else if String.eqb key "message" then Ui.set_message value info
  else info.
Proof.
  intro H. unfold Ui.readLine.
  rewrite (find_field key value H), substr_to_field, substr_from_field.
  reflexivity.
Qed.

Lemma readLine_pid (value : string) (info : Ui.UiStatus) :
  Ui.hasData (Ui.readLine info ("pid=" ++ value)) = Ui.hasData info /\
  Ui.active (Ui.readLine info ("pid=" ++ value)) = Ui.active info /\
  Ui.debug (Ui.readLine info ("pid=" ++ value)) = Ui.debug info /\
  Ui.message (Ui.readLine info ("pid=" ++ value)) = Ui.message info.
Proof.
  change ("pid=" ++ value) with ("pid" ++ String "=" value).
  rewrite readLine_field by reflexivity.
  cbn [String.eqb Ascii.eqb Bool.eqb].
  destruct (Ui.strtol value); repeat split.
Qed.

Lemma readLine_active (value : string) (info : Ui.UiStatus) :
  Ui.readLine info ("active=" ++ value) = Ui.set_active (Ui.truthy value) info.
Proof.
  change ("active=" ++ value) with ("active" ++ String "=" value).
  rewrite readLine_field by reflexivity. reflexivity.
Qed.

Lemma readLine_debug (value : string) (info : Ui.UiStatus) :
  Ui.readLine info ("debug=" ++ value) = Ui.set_debug (Ui.truthy value) info.
Proof.
  change ("debug=" ++ value) with ("debug" ++ String "=" value).
  rewrite readLine_field by reflexivity. reflexivity.
Qed.

Lemma readLine_message (value : string) (info : Ui.UiStatus) :
  Ui.readLine info ("message=" ++ value) = Ui.set_message value info.
Proof.
  change ("message=" ++ value) with ("message" ++ String "=" value).
  rewrite readLine_field by reflexivity. reflexivity.
Qed.

Lemma truthy_flagDigit (b : bool) : Ui.truthy (flagDigit b) = b.
Proof. destruct b; reflexivity. Qed.

Lemma readStatus_statusText (pid : Z) (active debug : bool) (message : string) :
  let info := Ui.readStatus (Some (statusText pid active debug message)) in
  Ui.hasData info = true /\
  Ui.active info = active /\
  Ui.debug info = debug /\
  Ui.message info =
    (if String.eqb (sanitizeStatusMessage message) ""
     then "Status file present but empty."
     else sanitizeStatusMessage message).
Proof.
  unfold Ui.readStatus. rewrite getlines_statusText. cbn [fold_left].
  rewrite readLine_active, readLine_debug, readLine_message.
  rewrite !truthy_flagDigit.
  set (start := Ui.mkUiStatus _ _ _ _ _).
  destruct (readLine_pid (to_string pid) start) as (Hd & _ & _ & _).
  cbn [Ui.message Ui.set_message].
  destruct (String.eqb (sanitizeStatusMessage message) "");
    cbn [Ui.hasData Ui.active Ui.debug Ui.message Ui.set_message
         Ui.set_debug Ui.set_active];
    rewrite Hd; repeat split; reflexivity.
Qed.

(** ** The status file follows the state *)

Section StatusFileOpens.

Variable env : Env.
Hypothesis opens : forall n, env_open_status env n = true.

Ltac status_solver :=
  unfold statusCurrent; intros; cbn in *; assumption.

Lemma updateStatusFile_statusCurrent :
  establishes (updateStatusFile env) (statusCurrent env).
Proof.
  intros w _. unfold statusCurrent.
  destruct (updateStatusFile_run env w)
    as (_ & Ha & _ & _ & Hm & Hd & _ & _ & _ & _ & Hf & _).
  rewrite Hf, Ha, Hm, Hd. unfold publishedFile. rewrite opens. reflexivity.
Qed.

Lemma logDebug_statusCurrent (message : string) :
  stable (statusCurrent env) (logDebug message).
Proof. stable_tac status_solver. Qed.

Lemma setStatusMessage_statusCurrent (message : string) :
  establishes (setStatusMessage env message) (statusCurrent env).
Proof.
  unfold setStatusMessage. apply establishes_bind. intro.
  apply establishes_bind. intro. apply updateStatusFile_statusCurrent.
Qed.

Ltac status_step :=
  first [ apply logDebug_statusCurrent
        | apply stable_of_establishes, setStatusMessage_statusCurrent
        | apply stable_of_establishes, updateStatusFile_statusCurrent
        | stable_step status_solver ].

Lemma acquireScreenSaver_statusCurrent :
  stable (statusCurrent env) (acquireScreenSaverInhibitor env).
Proof.
  unfold acquireScreenSaverInhibitor, sessionBus, getConnection.
  repeat status_step.
Qed.

Lemma acquireLogin1_statusCurrent (what : string) (fdOut : FdRef) :
  stable (statusCurrent env) (acquireLogin1Inhibitor env what fdOut).
Proof.
  unfold acquireLogin1Inhibitor, systemBus, getConnection.
  repeat status_step.
Qed.

Lemma acquireInhibitors_statusCurrent :
  establishes (acquireInhibitors env) (statusCurrent env).
Proof.
  unfold acquireInhibitors.
  do 6 (apply establishes_bind; intro).
  match goal with |- establishes (if ?b then _ else _) _ => destruct b end;
    (apply establishes_then; [|intro; apply stable_ret]).
  - apply setStatusMessage_statusCurrent.
  - apply updateStatusFile_statusCurrent.
Qed.

Lemma cleanupInhibitors_statusCurrent :
  establishes (cleanupInhibitors env) (statusCurrent env).
Proof.
  unfold cleanupInhibitors.
  do 9 (apply establishes_bind; intro).
  apply updateStatusFile_statusCurrent.
Qed.

Lemma acquireBlock_statusCurrent :
  stable (statusCurrent env) (acquireBlock env).
Proof.
  unfold acquireBlock.
  repeat first [ apply stable_of_establishes, acquireInhibitors_statusCurrent
               | status_step ].
Qed.

Lemma releaseBlock_statusCurrent :
  stable (statusCurrent env) (releaseBlock env).
Proof.
  unfold releaseBlock.
  repeat first [ apply stable_of_establishes, cleanupInhibitors_statusCurrent
               | status_step ].
Qed.

Lemma acquireBlock_publishes :
  hoare (fun w => acquireRequested w = true) (acquireBlock env)
    (fun _ => statusCurrent env).
Proof.
  intros w Hr. unfold acquireBlock. rewrite run_bind. cbn [gets fst snd].
  rewrite Hr. rewrite run_bind. cbn [modify fst snd]. rewrite run_bind.
  cbn [gets fst snd].
  match goal with |- context [if negb ?b then _ else _] => destruct b end;
    cbn [negb].
  - apply (establishes_bind (statusCurrent env)
             (logDebug "Acquire request ignored; inhibitors already active.")
             (fun _ => updateStatusFile env)); [|exact Logic.I].
    intro. apply updateStatusFile_statusCurrent.
  - apply (establishes_then (statusCurrent env) (acquireInhibitors env));
      [apply acquireInhibitors_statusCurrent | | exact Logic.I].
    intro a. destruct a; cbn [negb]; [apply stable_ret | apply logDebug_statusCurrent].
Qed.

Lemma releaseBlock_publishes :
  hoare (fun w => releaseRequested w = true) (releaseBlock env)
    (fun _ => statusCurrent env).
Proof.
  intros w Hr. unfold releaseBlock. rewrite run_bind. cbn [gets fst snd].
  rewrite Hr. rewrite run_bind. cbn [modify fst snd]. rewrite run_bind.
  cbn [gets fst snd].
  match goal with |- context [if ?b then _ ;; _ else _] => destruct b end.
  - apply (establishes_bind (statusCurrent env) (cleanupInhibitors env)
             (fun _ => setStatusMessage env _)); [|exact Logic.I].
    intro. apply setStatusMessage_statusCurrent.
  - apply setStatusMessage_statusCurrent. exact Logic.I.
Qed.

Lemma exitInhibitorLoop_statusCurrent :
  establishes (exitInhibitorLoop env) (statusCurrent env).
Proof.
  unfold exitInhibitorLoop.
  do 2 (apply establishes_bind; intro).
  apply establishes_then; [apply cleanupInhibitors_statusCurrent|].
  intro. destruct a0; [apply stable_of_establishes, setStatusMessage_statusCurrent
                      | apply stable_ret].
Qed.

Lemma runInhibitorLoop_statusCurrent (ticks : list Tick) :
  establishes (runInhibitorLoop env ticks) (statusCurrent env).
Proof.
  unfold runInhibitorLoop.
  apply establishes_then.
  - unfold enterInhibitorLoop.
    apply establishes_then; [apply acquireInhibitors_statusCurrent|].
    intro acquired. apply stable_bind.
    + destruct acquired; cbn [negb]; [apply stable_ret | apply logDebug_statusCurrent].
    + intro. apply pollingLoop_stable.
      * intro sig. destruct sig; stable_tac status_solver.
      * apply acquireBlock_statusCurrent.
      * apply releaseBlock_statusCurrent.
  - intro exited. apply stable_bind; [|intro; apply stable_ret].
    destruct exited;
      [apply stable_of_establishes, exitInhibitorLoop_statusCurrent
      | apply stable_ret].
Qed.

End StatusFileOpens.

Lemma statusCurrent_readsBack (env : Env) (w : World) :
  statusCurrent env w -> readsBack w.
Proof.
  unfold statusCurrent, readsBack. intros ->.
  destruct (readStatus_statusText (env_pid env) (inhibitorsActive w)
              (debugLoggingEnabled w) (lastQbusError w)) as (H1 & H2 & H3 & _).
  auto.
Qed.

(** C7, as the code has it. Provided the status file can be opened for
    writing whenever it is published, every transition ends with the file
    rewritten from the state it has reached: after an acquisition attempt,
    after the handling of an acquire request or of a release request
    (no-ops included), after the cleanup on exit and at any point where
    [runInhibitorLoop] has got to, the file is the publication of the
    present state, and the window reads from it an [active] field equal to
    [inhibitorsActive]. *)
Theorem status_file_follows_state (env : Env) :
  (forall n, env_open_status env n = true) ->
  (forall w, let w' := snd (acquireInhibitors env w) in
             statusCurrent env w' /\ readsBack w') /\
  (forall w, acquireRequested w = true ->
             let w' := snd (acquireBlock env w) in
             statusCurrent env w' /\ readsBack w') /\
  (forall w, releaseRequested w = true ->
             let w' := snd (releaseBlock env w) in
             statusCurrent env w' /\ readsBack w') /\
  (forall w, let w' := snd (exitInhibitorLoop env w) in
             statusCurrent env w' /\ readsBack w') /\
  (forall debug file ticks,
     let w' := snd (runInhibitorLoop env ticks (initialWorld debug file)) in
     statusCurrent env w' /\ readsBack w').
Proof.
  intro opens.
  assert (both : forall w, statusCurrent env w -> statusCurrent env w /\ readsBack w).
  { intros w H. split; [exact H | exact (statusCurrent_readsBack env w H)]. }
  split; [|split; [|split; [|split]]]; intros; apply both.
  - apply (acquireInhibitors_statusCurrent env opens). exact Logic.I.
  - apply (acquireBlock_publishes env opens). assumption.
  - apply (releaseBlock_publishes env opens). assumption.
  - apply (exitInhibitorLoop_statusCurrent env opens). exact Logic.I.
  - apply (runInhibitorLoop_statusCurrent env opens). exact Logic.I.
Qed.

Lemma status_file_follows_state_witness :
  (forall n, env_open_status envAllOk n = true) /\
  readsBack (snd (runInhibitorLoop envAllOk [mkTick [] [] [SIGUSR2]]
                    (initialWorld true None))).
Proof.
  split; [intro n; reflexivity|].
  exact (proj2 (proj2 (proj2 (proj2 (proj2
           (status_file_follows_state envAllOk (fun n => eq_refl)))))
           true None [mkTick [] [] [SIGUSR2]])).
Defined.

(** C7 as the specification words it fails: the status file does not
    always follow the state. When the file left by an earlier instance
    cannot be opened for writing, the controller acquires the three leases
    and the file still says [active=0]. *)
Lemma stale_status_file_counterexample :
  let w := snd (runInhibitorLoop envReadOnlyStatus []
                  (initialWorld false (Some staleStatus))) in
  inhibitorsActive w = true /\
  statusFile w = Some staleStatus /\
  Ui.active (Ui.readStatus (statusFile w)) = false /\
  Ui.active (Ui.readStatus (statusFile w)) <> inhibitorsActive w.
Proof. vm_compute. repeat split; try reflexivity. discriminate. Qed.

(** ** Runs that differ in the debug flag *)

Lemma statusAgree_refl (f : option string) : statusAgree f f.
Proof. left. reflexivity. Qed.

Lemma respects_ret {A : Type} (a : A) : respects (ret a).
Proof. intros w1 w2 H. split; [reflexivity | exact H]. Qed.

Lemma respects_bind {A B : Type} (m : M A) (k : A -> M B) :
  respects m -> (forall a, respects (k a)) -> respects (bind m k).
Proof.
  intros Hm Hk w1 w2 H. rewrite !run_bind.
  destruct (Hm w1 w2 H) as [Ha Hw]. rewrite Ha. apply Hk. exact Hw.
Qed.

Lemma respects_gets {A : Type} (f : World -> A) :
  (forall w1 w2, sameButDebug w1 w2 -> f w1 = f w2) -> respects (gets f).
Proof. intros Hf w1 w2 H. split; [apply Hf, H | exact H]. Qed.

Lemma respects_modify (f : World -> World) :
  (forall w1 w2, sameButDebug w1 w2 -> sameButDebug (f w1) (f w2)) ->
  respects (modify f).
Proof. intros Hf w1 w2 H. split; [reflexivity | apply Hf, H]. Qed.

Ltac debug_solver :=
  unfold sameButDebug;
  intros ? ? (?H & ?H & ?H & ?H & ?H & ?H & ?H & ?H & ?H & ?H);
  cbn; repeat split; solve [assumption | congruence].

Lemma respects_tick : respects tick.
Proof.
  intros w1 w2 H. split; [apply H|]. revert w1 w2 H. unfold tick. cbn [snd].
  debug_solver.
Qed.

Lemma respects_logDebug (message : string) : respects (logDebug message).
Proof.
  intros w1 w2 H. rewrite !logDebug_run. split; [reflexivity|]. cbn [snd].
  revert H. unfold sameButDebug.
  destruct (debugLoggingEnabled w1), (debugLoggingEnabled w2); cbn; auto.
Qed.

Lemma respects_updateStatusFile (env : Env) : respects (updateStatusFile env).
Proof.
  unfold updateStatusFile. apply respects_bind; [apply respects_tick|].
  intro n. destruct (env_open_status env n); cbn [negb];
    [|apply respects_logDebug].
  intros w1 w2 H. split; [reflexivity|]. cbv [bind gets modify snd].
  revert H. unfold sameButDebug.
  intros (H1 & H2 & H3 & H4 & H5 & H6 & H7 & H8 & H9 & H10).
  cbn. rewrite H2, H6. repeat split; try assumption.
  right. exists (env_pid env), (inhibitorsActive w2),
    (debugLoggingEnabled w1), (debugLoggingEnabled w2), (lastQbusError w2).
  split; reflexivity.
Qed.

Ltac respects_step env :=
  first
    [ apply respects_logDebug
    | apply (respects_updateStatusFile env)
    | lazymatch goal with
      | |- respects (bind _ _) => apply respects_bind; [ | intro ]
      | |- respects (ret _) => apply respects_ret
      | |- respects skip => apply respects_ret
      | |- respects tick => apply respects_tick
      | |- respects (gets _) => apply respects_gets; debug_solver
      | |- respects (modify _) => apply respects_modify; debug_solver
      | |- respects (emit _) => apply respects_modify; debug_solver
      | |- respects (note _) => apply respects_modify; debug_solver
      | |- respects (modifyHandles _) => apply respects_modify; debug_solver
      | |- respects (if ?b then _ else _) => destruct b
      | |- respects (match ?x with _ => _ end) => destruct x
      end ].

Ltac respects_tac env :=
  unfold exitInhibitorLoop, releaseBlock, acquireBlock, acquireInhibitors,
    cleanupInhibitors, releaseLogin1Fd, releaseScreenSaverInhibitor,
    acquireLogin1Inhibitor, acquireScreenSaverInhibitor, systemBus,
    sessionBus, getConnection, handleSignal, setStatusMessage;
  repeat respects_step env.

Section DebugFlag.

Variable env : Env.

Lemma respects_deliver (sigs : list Signal) : respects (deliver sigs).
Proof.
  induction sigs as [|sig sigs IH]; cbn [deliver].
  - apply respects_ret.
  - apply respects_bind; [|intro; exact IH].
    destruct sig; respects_tac env.
Qed.

Lemma respects_acquireBlock : respects (acquireBlock env).
Proof. respects_tac env. Qed.

Lemma respects_releaseBlock : respects (releaseBlock env).
Proof. respects_tac env. Qed.

Lemma respects_pollingLoop (ticks : list Tick) :
  respects (pollingLoop env ticks).
Proof.
  induction ticks as [|t ticks IH]; cbn [pollingLoop].
  - apply respects_ret.
  - repeat first [ apply respects_deliver
                 | apply respects_acquireBlock
                 | apply respects_releaseBlock
                 | exact IH
                 | respects_step env ].
Qed.

Lemma respects_runInhibitorLoop (ticks : list Tick) :
  respects (runInhibitorLoop env ticks).
Proof.
  unfold runInhibitorLoop, enterInhibitorLoop.
  repeat first [ apply respects_pollingLoop | respects_tac env ].
Qed.

End DebugFlag.

(** C9. Two runs of [runInhibitorLoop] in the same environment, with the
    same signals and from the same initial status file, one with debug
    logging and one without, return alike and end in states that agree on
    the handles, the active flag, the pending requests, the status message,
    the sequence of bus and descriptor operations, the number of requests
    made to the environment and the operations of the controller that ran;
    their status files agree but for the [debug] line. Only what was
    printed and the debug flag differ. *)
Theorem debug_flag_does_not_steer
    (env : Env) (file : option string) (ticks : list Tick)
    (debug1 debug2 : bool) :
  let run1 := runInhibitorLoop env ticks (initialWorld debug1 file) in
  let run2 := runInhibitorLoop env ticks (initialWorld debug2 file) in
  fst run1 = fst run2 /\ sameButDebug (snd run1) (snd run2).
Proof.
  apply respects_runInhibitorLoop.
  unfold sameButDebug, initialWorld. cbn.
  repeat split; try reflexivity. apply statusAgree_refl.
Qed.

(** ** An acquisition attempt *)

Ltac calls_solver := intros; cbn in *; assumption.

Lemma acquireScreenSaver_callLog (env : Env) (w : World) :
  callLog (snd (acquireScreenSaverInhibitor env w)) =
  (callLog w ++ [CallAcquireScreenSaver])%list.
Proof.
  revert w.
  enough (H : forall log,
             hoare (fun w => callLog w = log) (acquireScreenSaverInhibitor env)
               (fun _ w => callLog w = (log ++ [CallAcquireScreenSaver])%list)).
  { intro w. apply (H (callLog w) w). reflexivity. }
  intro log. unfold acquireScreenSaverInhibitor.
  apply hoare_bind
    with (R := fun _ w => callLog w = (log ++ [CallAcquireScreenSaver])%list).
  { apply hoare_modify. intros w H. cbn. rewrite H. reflexivity. }
  intro. apply as_stable. stable_tac calls_solver.
Qed.

Lemma acquireLogin1_callLog (env : Env) (what : string) (fdOut : FdRef)
    (w : World) :
  callLog (snd (acquireLogin1Inhibitor env what fdOut w)) =
  (callLog w ++ [CallAcquireLogin1 what])%list.
Proof.
  revert w.
  enough (H : forall log,
             hoare (fun w => callLog w = log)
               (acquireLogin1Inhibitor env what fdOut)
               (fun _ w => callLog w = (log ++ [CallAcquireLogin1 what])%list)).
  { intro w. apply (H (callLog w) w). reflexivity. }
  intro log. unfold acquireLogin1Inhibitor.
  apply hoare_bind
    with (R := fun _ w => callLog w = (log ++ [CallAcquireLogin1 what])%list).
  { apply hoare_modify. intros w H. cbn. rewrite H. reflexivity. }
  intro. apply as_stable. stable_tac calls_solver.
Qed.

(** The end of [acquireInhibitors], once the three acquisitions returned. *)
Lemma acquireInhibitors_conclude (env : Env) (w : World) :
  let w1 := snd (acquireScreenSaverInhibitor env w) in
  let w2 := snd (acquireLogin1Inhibitor env "idle" RefIdleFd w1) in
  let w3 := snd (acquireLogin1Inhibitor env "sleep" RefSleepFd w2) in
  let screen := fst (acquireScreenSaverInhibitor env w) in
  let idle := fst (acquireLogin1Inhibitor env "idle" RefIdleFd w1) in
  let sleep := fst (acquireLogin1Inhibitor env "sleep" RefSleepFd w2) in
  let r := acquireInhibitors env w in
  fst r = screen && idle && sleep /\
  inhibitorsActive (snd r) = screen && idle && sleep /\
  inhibitorHandles (snd r) = inhibitorHandles w3 /\
  busTrace (snd r) = busTrace w3 /\
  callLog (snd r) = (callLog w3 ++ [CallAttempt screen idle sleep])%list.
Proof.
  intros w1 w2 w3 screen idle sleep r. subst r.
  unfold acquireInhibitors. rewrite !run_bind.
  fold screen. fold w1. fold idle. fold w2. fold sleep. fold w3.
  cbn [modify note gets fst snd inhibitorsActive set_inhibitorsActive
       set_callLog].
  destruct (screen && idle && sleep).
  - rewrite run_bind.
    match goal with
    | |- context [setStatusMessage env ?m ?w0] =>
        destruct (setStatusMessage_run env m w0)
          as (H1 & H2 & H3 & H4 & _)
    end.
    cbn [ret fst snd]. rewrite H1, H2, H3, H4. repeat split.
  - rewrite run_bind.
    match goal with
    | |- context [updateStatusFile env ?w0] =>
        destruct (updateStatusFile_run env w0) as (H1 & H2 & H3 & H4 & _)
    end.
    cbn [ret fst snd]. rewrite H1, H2, H3, H4. repeat split.
Qed.

Section BusesAnswer.

Variable env : Env.
Hypothesis connects : forall n type, exists c, env_bus_get env n type = BusGetOk c.
Hypothesis allocates : forall n, env_new_method_call env n = true.

Ltac sent_done :=
  unfold sentCalls; rewrite ?flat_map_app; cbn [flat_map List.app];
  rewrite ?app_nil_r; reflexivity.

Ltac impossible :=
  match goal with
  | H : env_bus_get env ?n ?ty = _ |- _ =>
      destruct (connects n ty) as [? ?]; congruence
  | H : env_new_method_call env ?n = false |- _ =>
      rewrite allocates in H; discriminate H
  end.

Lemma acquireScreenSaver_sent (w : World) :
  sentCalls (busTrace (snd (acquireScreenSaverInhibitor env w))) =
  (sentCalls (busTrace w)
   ++ [ScreenSaverInhibit APP_NAME "caffeine8 prevents automatic locking"])%list.
Proof.
  destruct w as [[sc yc cookie ifd sfd] dbg act t a r msg file out tr clk log].
  exec; try impossible; sent_done.
Qed.

Lemma acquireLogin1_sent (what : string) (fdOut : FdRef) (w : World) :
  sentCalls (busTrace (snd (acquireLogin1Inhibitor env what fdOut w))) =
  (sentCalls (busTrace w)
   ++ [Login1Inhibit what APP_NAME
         "caffeine8 is preventing automatic sleep" "block"])%list.
Proof.
  destruct w as [[sc yc cookie ifd sfd] dbg act t a r msg file out tr clk log].
  destruct fdOut; exec; try impossible; sent_done.
Qed.

End BusesAnswer.

(** C10. Every run of [acquireInhibitors] enters the three acquisitions,
    screen saver, then idle, then sleep, and only then sets the flag to the
    conjunction of their results, which is also what it returns: the log
    shows the three of them whatever each returned. On the buses, when the
    connections can be opened and the request messages built, exactly the
    three Inhibit requests are sent in that order, whatever the replies. *)
Theorem acquisition_attempts_all_three (env : Env) (w : World) :
  let r := acquireInhibitors env w in
  (exists screen idle sleep,
     callLog (snd r) =
       (callLog w
        ++ [CallAcquireScreenSaver; CallAcquireLogin1 "idle";
            CallAcquireLogin1 "sleep"; CallAttempt screen idle sleep])%list /\
     fst r = screen && idle && sleep /\
     inhibitorsActive (snd r) = screen && idle && sleep) /\
  ((forall n type, exists c, env_bus_get env n type = BusGetOk c) ->
   (forall n, env_new_method_call env n = true) ->
   sentCalls (busTrace (snd r)) =
     (sentCalls (busTrace w)
      ++ [ScreenSaverInhibit APP_NAME "caffeine8 prevents automatic locking";
          Login1Inhibit "idle" APP_NAME
            "caffeine8 is preventing automatic sleep" "block";
          Login1Inhibit "sleep" APP_NAME
            "caffeine8 is preventing automatic sleep" "block"])%list).
Proof.
  intro r. subst r.
  destruct (acquireInhibitors_conclude env w) as (Hr & Ha & _ & Ht & Hl).
  split.
  - eexists _, _, _. split; [|split; [exact Hr | exact Ha]].
    rewrite Hl, acquireLogin1_callLog, acquireLogin1_callLog,
      acquireScreenSaver_callLog.
    rewrite <- !app_assoc. reflexivity.
  - intros connects allocates.
    rewrite Ht, (acquireLogin1_sent env connects allocates),
      (acquireLogin1_sent env connects allocates),
      (acquireScreenSaver_sent env connects allocates).
    rewrite <- !app_assoc. reflexivity.
Qed.

Lemma acquisition_attempts_all_three_witness :
  let r := acquireInhibitors envNoScreenSaver (initialWorld false None) in
  fst r = false /\
  sentCalls (busTrace (snd r)) =
    [ScreenSaverInhibit APP_NAME "caffeine8 prevents automatic locking";
     Login1Inhibit "idle" APP_NAME
       "caffeine8 is preventing automatic sleep" "block";
     Login1Inhibit "sleep" APP_NAME
       "caffeine8 is preventing automatic sleep" "block"].
Proof.
  intro r. split; [vm_compute; reflexivity|].
  exact (proj2 (acquisition_attempts_all_three envNoScreenSaver
                  (initialWorld false None))
           (fun n type => ex_intro _ n eq_refl) (fun n => eq_refl)).
Defined.

(** ** A partial acquisition *)

(** C2 names a defect of the code. After a start on which the screen-saver
    lease fails and the idle and sleep leases are obtained (descriptors 6
    and 8), the flag is false and both descriptors are in the handles. A
    request to acquire then runs a second attempt, which stores the
    descriptors it obtains (14 and 16) over them: before any cleanup, the
    handles no longer hold the descriptors of the first attempt, and no
    operation has closed them. *)
Lemma reacquire_drops_descriptors :
  let w0 := initialWorld false None in
  let w1 := snd (enterInhibitorLoop envNoScreenSaver [] w0) in
  let w2 := snd (enterInhibitorLoop envNoScreenSaver [mkTick [SIGUSR1] [] []] w0) in
  inhibitorsActive w1 = false /\
  idleFd (inhibitorHandles w1) = 6 /\
  sleepFd (inhibitorHandles w1) = 8 /\
  callLog w2 =
    [CallAcquireScreenSaver; CallAcquireLogin1 "idle";
     CallAcquireLogin1 "sleep"; CallAttempt false true true;
     CallAcquireScreenSaver; CallAcquireLogin1 "idle";
     CallAcquireLogin1 "sleep"; CallAttempt false true true] /\
  idleFd (inhibitorHandles w2) = 14 /\
  sleepFd (inhibitorHandles w2) = 16 /\
  existsb isRelease (busTrace w2) = false.
Proof. vm_compute. repeat split; reflexivity. Qed.

(** * Further properties *)

(** ** Signals *)

Lemma deliver_run (sigs : list Signal) (w : World) :
  deliver sigs w = (tt, afterSignals sigs w).
Proof.
  revert w. induction sigs as [|sig sigs IH]; intro w.
  - destruct w. unfold afterSignals. cbn. rewrite !orb_false_r. reflexivity.
  - cbn [deliver]. rewrite run_bind, IH. f_equal.
    destruct w as [h dbg act t a r msg file out tr clk log].
    destruct sig; unfold afterSignals; cbn;
      rewrite ?orb_false_r, ?orb_true_r, ?orb_true_l, ?orb_false_l;
      reflexivity.
Qed.

Lemma existsb_same_members {A : Type} (f : A -> bool) (l1 l2 : list A) :
  (forall x, In x l1 <-> In x l2) -> existsb f l1 = existsb f l2.
Proof.
  intro H. apply eq_true_iff_eq. rewrite !existsb_exists.
  split; intros (x & Hx & Hf); exists x; split; auto; apply H; exact Hx.
Qed.

(** X1. Pending requests are flags, not a queue. Handling a batch of
    signals leaves everything but the three request flags as it was and
    raises [terminationRequested] when SIGTERM or SIGINT is among them,
    [acquireRequested] when SIGUSR1 is, [releaseRequested] when SIGUSR2 is;
    a flag that was set stays set. So two batches with the same signals,
    in whatever order and however often repeated, leave the same state. *)
Theorem signals_coalesce (sigs : list Signal) (w : World) :
  deliver sigs w = (tt, afterSignals sigs w) /\
  (forall sigs', (forall sig, In sig sigs <-> In sig sigs') ->
                 deliver sigs' w = deliver sigs w).
Proof.
  split; [apply deliver_run|].
  intros sigs' H. rewrite !deliver_run. unfold afterSignals.
  rewrite (existsb_same_members requestsTermination sigs sigs' H),
    (existsb_same_members requestsAcquire sigs sigs' H),
    (existsb_same_members requestsRelease sigs sigs' H).
  reflexivity.
Qed.

(** ** Iterations without a request *)

Lemma acquireBlock_idle (env : Env) (w : World) :
  acquireRequested w = false -> acquireBlock env w = (tt, w).
Proof. intro H. unfold acquireBlock. cbv [bind gets]. rewrite H. reflexivity. Qed.

Lemma releaseBlock_idle (env : Env) (w : World) :
  releaseRequested w = false -> releaseBlock env w = (tt, w).
Proof. intro H. unfold releaseBlock. cbv [bind gets]. rewrite H. reflexivity. Qed.

(** X2. Polling is free of effects. As long as no signal arrives and no
    request is pending, the iterations of the loop change nothing: no
    operation on a bus or a descriptor, no rewrite of the status file,
    nothing printed, and the loop goes on. *)
Theorem idle_iterations_do_nothing (env : Env) (ticks : list Tick) (w : World) :
  Forall noSignals ticks -> noRequests w ->
  pollingLoop env ticks w = (false, w).
Proof.
  intros Hticks (Ht & Ha & Hr).
  induction Hticks as [|t ticks (H1 & H2 & H3) _ IH]; [reflexivity|].
  cbn [pollingLoop]. rewrite H1, H2, H3. cbn [deliver].
  cbv [bind skip ret gets]. rewrite Ht.
  rewrite (acquireBlock_idle env w Ha), (releaseBlock_idle env w Hr).
  exact IH.
Qed.

Lemma idle_iterations_do_nothing_witness :
  Forall noSignals [mkTick [] [] []; mkTick [] [] []] /\
  noRequests startedWorld /\
  pollingLoop envAllOk [mkTick [] [] []; mkTick [] [] []] startedWorld
  = (false, startedWorld).
Proof.
  assert (H1 : Forall noSignals [mkTick [] [] []; mkTick [] [] []]).
  { repeat constructor. }
  assert (H2 : noRequests startedWorld) by (repeat split).
  split; [exact H1|]. split; [exact H2|].
  exact (idle_iterations_do_nothing envAllOk _ startedWorld H1 H2).
Defined.

(** ** What is printed *)

Lemma logDebug_quiet (message : string) : stable quiet (logDebug message).
Proof.
  intros w (Hd & Ho). rewrite logDebug_run. cbn [snd]. rewrite Hd.
  split; assumption.
Qed.

Ltac quiet_solver := unfold quiet; intros; cbn in *; assumption.

Ltac quiet_tac :=
  unfold runInhibitorLoop, enterInhibitorLoop, exitInhibitorLoop, releaseBlock,
    acquireBlock, acquireInhibitors,
    cleanupInhibitors, releaseLogin1Fd, releaseScreenSaverInhibitor,
    acquireLogin1Inhibitor, acquireScreenSaverInhibitor, systemBus,
    sessionBus, getConnection, handleSignal, setStatusMessage,
    updateStatusFile;
  repeat first [apply logDebug_quiet | stable_step quiet_solver].

(** X3. Without the debug flag the controller prints nothing: whatever the
    environment answers and whatever signals arrive, standard output is
    empty at every point that [runInhibitorLoop] gets to. *)
Theorem silent_without_debug
    (env : Env) (file : option string) (ticks : list Tick) :
  stdout (snd (runInhibitorLoop env ticks (initialWorld false file))) = [].
Proof.
  enough (H : stable quiet (runInhibitorLoop env ticks)).
  { apply (H (initialWorld false file)). split; reflexivity. }
  unfold runInhibitorLoop.
  apply stable_bind.
  - apply enterInhibitorLoop_stable.
    + intro sig. destruct sig; quiet_tac.
    + quiet_tac.
    + apply logDebug_quiet.
    + quiet_tac.
    + quiet_tac.
  - intro exited. quiet_tac.
Qed.

(** ** Leaving the loop *)

Lemma runInhibitorLoop_exited (env : Env) (ticks : list Tick) (w : World) :
  fst (enterInhibitorLoop env ticks w) = true ->
  runInhibitorLoop env ticks w =
  (true, snd (exitInhibitorLoop env (snd (enterInhibitorLoop env ticks w)))).
Proof.
  intro H. unfold runInhibitorLoop. rewrite run_bind, H, run_bind. reflexivity.
Qed.

Lemma runInhibitorLoop_polling (env : Env) (ticks : list Tick) (w : World) :
  fst (enterInhibitorLoop env ticks w) = false ->
  runInhibitorLoop env ticks w = (false, snd (enterInhibitorLoop env ticks w)).
Proof.
  intro H. unfold runInhibitorLoop. rewrite run_bind, H, run_bind. reflexivity.
Qed.

Lemma fst_runInhibitorLoop (env : Env) (ticks : list Tick) (w : World) :
  fst (runInhibitorLoop env ticks w) = fst (enterInhibitorLoop env ticks w).
Proof.
  destruct (fst (enterInhibitorLoop env ticks w)) eqn:E.
  - rewrite runInhibitorLoop_exited by exact E. reflexivity.
  - rewrite runInhibitorLoop_polling by exact E. reflexivity.
Qed.

(** X4. When [runInhibitorLoop] returns, nothing is left in the handles:
    both connections are null, both descriptor fields are negative and the
    flag is false, whether the inhibitors were active or only partly
    acquired when the loop was left; the last operations on the buses and
    descriptors are the releases of what was held then, and the log ends
    with the cleanup. *)
Theorem exit_leaves_nothing_held
    (env : Env) (ticks : list Tick) (w : World) :
  fst (runInhibitorLoop env ticks w) = true ->
  let w1 := snd (enterInhibitorLoop env ticks w) in
  let w' := snd (runInhibitorLoop env ticks w) in
  nothingToRelease w' /\
  inhibitorsActive w' = false /\
  busTrace w' = (busTrace w1 ++ releaseActions env w1)%list /\
  callLog w' = (callLog w1 ++ [CallCleanup])%list.
Proof.
  intros H w1 w'. rewrite fst_runInhibitorLoop in H.
  subst w'. rewrite (runInhibitorLoop_exited env ticks w H). cbn [snd]. fold w1.
  destruct (exitInhibitorLoop_run env w1) as (Hh & Ha & Ht & Hl & _).
  split; [|split; [exact Ha | split; [exact Ht | exact Hl]]].
  unfold nothingToRelease. rewrite Hh.
  cbn [releasedHandles sessionConnection systemConnection idleFd sleepFd].
  repeat split;
    first [apply (releasedFd_spec (idleFd (inhibitorHandles w1)))
          | apply (releasedFd_spec (sleepFd (inhibitorHandles w1)))].
Qed.

Lemma exit_leaves_nothing_held_witness :
  let ticks := [mkTick [SIGINT] [] []] in
  let w := initialWorld true None in
  fst (runInhibitorLoop envNoScreenSaver ticks w) = true /\
  nothingToRelease (snd (runInhibitorLoop envNoScreenSaver ticks w)).
Proof.
  intros ticks w.
  assert (H : fst (runInhibitorLoop envNoScreenSaver ticks w) = true)
    by (vm_compute; reflexivity).
  split; [exact H|].
  exact (proj1 (exit_leaves_nothing_held envNoScreenSaver ticks w H)).
Defined.

(** ** A release request within an iteration *)

Lemma releaseBlock_inactive_after (env : Env) (w : World) :
  releaseRequested w = true ->
  inhibitorsActive (snd (releaseBlock env w)) = false.
Proof.
  intro Hr. destruct (inhibitorsActive w) eqn:Ha.
  - rewrite (releaseBlock_active env w Hr Ha).
    destruct (setStatusMessage_run env "Inhibitors released by user request."
                (snd (cleanupInhibitors env (set_releaseRequested false w))))
      as (_ & H & _).
    rewrite H. apply cleanupInhibitors_run.
  - rewrite (releaseBlock_inactive env w Hr Ha).
    destruct (setStatusMessage_run env "Inhibitors already inactive."
                (set_releaseRequested false w)) as (_ & H & _).
    rewrite H. exact Ha.
Qed.

Lemma acquireBlock_keeps_release (env : Env) :
  keeps releaseRequested (acquireBlock env).
Proof.
  apply keeps_stable. intro v. stable_tac ltac:(intros; cbn in *; assumption).
Qed.

Lemma existsb_app_true {A : Type} (f : A -> bool) (x : A) (l : list A) :
  In x l -> f x = true -> existsb f l = true.
Proof. intros Hin Hf. apply existsb_exists. exists x. split; assumption. Qed.

(** X5. A release request wins the iteration. If SIGUSR2 arrives at any
    time in an iteration that the loop goes through (or a release request
    was already pending), the iteration ends with the inhibitors inactive,
    also when an acquire request is served in the same iteration: the
    acquire request is handled first and the release after it. *)
Theorem release_wins_the_iteration (env : Env) (t : Tick) (w : World) :
  terminationRequested (snd (deliver (beforeLoopTest t) w)) = false ->
  releaseRequested w = true
  \/ In SIGUSR2 (beforeLoopTest t ++ beforeAcquireTest t ++ beforeReleaseTest t) ->
  pollingLoop env [t] w
  = (false, snd (releaseBlock env
                   (snd (deliver (beforeReleaseTest t)
                      (snd (acquireBlock env
                         (snd (deliver (beforeAcquireTest t)
                            (snd (deliver (beforeLoopTest t) w))))))))))
  /\ inhibitorsActive (snd (pollingLoop env [t] w)) = false.
Proof.
  intros Hterm Hrel.
  assert (Hrun : pollingLoop env [t] w
    = (false, snd (releaseBlock env
                   (snd (deliver (beforeReleaseTest t)
                      (snd (acquireBlock env
                         (snd (deliver (beforeAcquireTest t)
                            (snd (deliver (beforeLoopTest t) w))))))))))).
  { cbn [pollingLoop]. rewrite run_bind, run_bind. cbn [gets fst snd].
    rewrite Hterm. rewrite !run_bind. reflexivity. }
  split; [exact Hrun|]. rewrite Hrun. cbn [snd].
  apply releaseBlock_inactive_after.
  rewrite !deliver_run in *. cbn [snd] in *.
  set (w1 := afterSignals (beforeLoopTest t) w) in *.
  set (w2 := afterSignals (beforeAcquireTest t) w1).
  set (w3 := snd (acquireBlock env w2)).
  assert (H3 : releaseRequested w3 = releaseRequested w2)
    by apply acquireBlock_keeps_release.
  unfold afterSignals. cbn [releaseRequested set_terminationRequested
    set_acquireRequested set_releaseRequested].
  rewrite H3. unfold w2, w1, afterSignals.
  cbn [releaseRequested set_terminationRequested set_acquireRequested
       set_releaseRequested].
  destruct Hrel as [Hrel | Hin].
  - rewrite Hrel. reflexivity.
  - apply in_app_or in Hin. destruct Hin as [Hin | Hin];
      [|apply in_app_or in Hin; destruct Hin as [Hin | Hin]];
      rewrite (existsb_app_true requestsRelease SIGUSR2 _ Hin eq_refl);
      rewrite ?orb_true_r; reflexivity.
Qed.

Lemma release_wins_the_iteration_witness :
  let t := mkTick [SIGUSR1; SIGUSR2] [] [] in
  let w := partialWorld in
  terminationRequested (snd (deliver (beforeLoopTest t) w)) = false /\
  inhibitorsActive (snd (pollingLoop envAllOk [t] w)) = false.
Proof.
  intros t w. split; [reflexivity|].
  exact (proj2 (release_wins_the_iteration envAllOk t w eq_refl
                  (or_intror (or_intror (or_introl eq_refl))))).
Defined.

(** ** What an attempt leaves behind *)

Ltac release_solver :=
  intros; cbn in *; rewrite ?filter_app; cbn; rewrite ?app_nil_r; assumption.

Lemma acquireInhibitors_no_release (env : Env) (kept : list BusAction) :
  stable (fun w => filter isRelease (busTrace w) = kept)
    (acquireInhibitors env).
Proof. stable_tac release_solver. Qed.

Ltac attempt_norm :=
  cbv -[Z.leb Z.eqb Z.lt Z.le statusText to_string String.append List.app
        sentCalls isAcquisitionError
        env_pid env_open_status env_bus_get env_new_method_call
        env_screen_saver_inhibit env_login1_inhibit
        env_screen_saver_uninhibit].

Ltac attempt_exec := attempt_norm; repeat (exec_step; attempt_norm).

Ltac handles_done :=
  try reflexivity; try discriminate; try assumption;
  try match goal with
      | |- isAcquisitionError (_ ++ ?m ++ _) = true =>
          is_var m; destruct m; reflexivity
      | |- isAcquisitionError (_ ++ ?m) = true =>
          is_var m; destruct m; reflexivity
      end;
  try match goal with
      | H : _ \/ _ |- _ => destruct H; first [discriminate | assumption]
      | H : ?x <> ?x |- _ => destruct (H eq_refl)
      | other : FdRef |- _ =>
          destruct other; first [reflexivity | congruence]
      end.

Section AttemptHandles.

Variable env : Env.

Lemma acquireScreenSaver_handles (w : World) :
  let r := acquireScreenSaverInhibitor env w in
  idleFd (inhibitorHandles (snd r)) = idleFd (inhibitorHandles w) /\
  sleepFd (inhibitorHandles (snd r)) = sleepFd (inhibitorHandles w) /\
  systemConnection (inhibitorHandles (snd r))
  = systemConnection (inhibitorHandles w) /\
  (fst r = false ->
   screenSaverCookie (inhibitorHandles (snd r))
   = screenSaverCookie (inhibitorHandles w)) /\
  (fst r = true -> sessionConnection (inhibitorHandles (snd r)) <> None) /\
  (fst r = false \/ isAcquisitionError (lastQbusError w) = true ->
   isAcquisitionError (lastQbusError (snd r)) = true).
Proof.
  destruct w as [[sc yc cookie ifd sfd] dbg act t a r msg file out tr clk log].
  attempt_exec; repeat split; intros; handles_done.
Qed.

Lemma acquireLogin1_handles (what : string) (fdOut : FdRef) (w : World) :
  let r := acquireLogin1Inhibitor env what fdOut w in
  screenSaverCookie (inhibitorHandles (snd r))
  = screenSaverCookie (inhibitorHandles w) /\
  sessionConnection (inhibitorHandles (snd r))
  = sessionConnection (inhibitorHandles w) /\
  (forall other, other <> fdOut ->
     get_fd other (inhibitorHandles (snd r)) = get_fd other (inhibitorHandles w)) /\
  (fst r = false ->
   get_fd fdOut (inhibitorHandles (snd r)) = get_fd fdOut (inhibitorHandles w)) /\
  (fst r = true -> systemConnection (inhibitorHandles (snd r)) <> None) /\
  (fst r = false \/ isAcquisitionError (lastQbusError w) = true ->
   isAcquisitionError (lastQbusError (snd r)) = true).
Proof.
  destruct w as [[sc yc cookie ifd sfd] dbg act t a r msg file out tr clk log].
  destruct fdOut; attempt_exec; repeat split; intros; handles_done.
Qed.

End AttemptHandles.

Lemma acquireInhibitors_message (env : Env) (w : World) :
  let w1 := snd (acquireScreenSaverInhibitor env w) in
  let w2 := snd (acquireLogin1Inhibitor env "idle" RefIdleFd w1) in
  let w3 := snd (acquireLogin1Inhibitor env "sleep" RefSleepFd w2) in
  let r := acquireInhibitors env w in
  lastQbusError (snd r) =
  if fst r then activeMessage else lastQbusError w3.
Proof.
  intros w1 w2 w3 r.
  destruct (acquireInhibitors_conclude env w) as (Hr & _). fold r in Hr.
  rewrite Hr. subst r.
  unfold acquireInhibitors. rewrite !run_bind.
  fold w1. fold w2. fold w3.
  cbn [modify note gets fst snd inhibitorsActive set_inhibitorsActive
       set_callLog].
  match goal with
  | |- context [if ?b then _ ;; ret true else _] => destruct b
  end.
  - rewrite run_bind.
    match goal with
    | |- context [setStatusMessage env ?m ?w0] =>
        destruct (setStatusMessage_run env m w0) as (_ & _ & _ & _ & H & _)
    end.
    cbn [ret fst snd]. exact H.
  - rewrite run_bind.
    match goal with
    | |- context [updateStatusFile env ?w0] =>
        destruct (updateStatusFile_run env w0) as (_ & _ & _ & _ & H & _)
    end.
    cbn [ret fst snd]. exact H.
Qed.

(** X7. An attempt only takes, it never gives back. [acquireInhibitors]
    performs no release (no UnInhibit, no close, no unref), whatever its
    outcome; an acquisition that fails leaves the handle of its category
    as it was, so that a partial success keeps what was obtained and a
    failure on a category keeps what an earlier attempt had stored. *)
Theorem attempt_never_releases (env : Env) (w : World) :
  let r := acquireInhibitors env w in
  filter isRelease (busTrace (snd r)) = filter isRelease (busTrace w) /\
  exists screen idle sleep,
    callLog (snd r) =
      (callLog w
       ++ [CallAcquireScreenSaver; CallAcquireLogin1 "idle";
           CallAcquireLogin1 "sleep"; CallAttempt screen idle sleep])%list /\
    (screen = false ->
     screenSaverCookie (inhibitorHandles (snd r))
     = screenSaverCookie (inhibitorHandles w)) /\
    (idle = false ->
     idleFd (inhibitorHandles (snd r)) = idleFd (inhibitorHandles w)) /\
    (sleep = false ->
     sleepFd (inhibitorHandles (snd r)) = sleepFd (inhibitorHandles w)).
Proof.
  intro r. split.
  { apply (acquireInhibitors_no_release env _ w). reflexivity. }
  subst r.
  destruct (acquireInhibitors_conclude env w) as (_ & _ & Hh & _ & Hl).
  set (w1 := snd (acquireScreenSaverInhibitor env w)) in *.
  set (w2 := snd (acquireLogin1Inhibitor env "idle" RefIdleFd w1)) in *.
  set (w3 := snd (acquireLogin1Inhibitor env "sleep" RefSleepFd w2)) in *.
  destruct (acquireScreenSaver_handles env w) as (S1 & S2 & _ & S4 & _).
  destruct (acquireLogin1_handles env "idle" RefIdleFd w1)
    as (I1 & _ & I3 & I4 & _).
  destruct (acquireLogin1_handles env "sleep" RefSleepFd w2)
    as (L1 & _ & L3 & L4 & _).
  fold w1 in S1, S2, S4. fold w2 in I1, I3, I4. fold w3 in L1, L3, L4.
  eexists _, _, _. split.
  { rewrite Hl. unfold w3, w2, w1.
    rewrite !acquireLogin1_callLog, acquireScreenSaver_callLog.
    rewrite <- !app_assoc. reflexivity. }
  rewrite Hh. split; [|split].
  - intro H. rewrite L1, I1. apply S4, H.
  - intro H. specialize (L3 RefIdleFd ltac:(discriminate)). cbn [get_fd] in *.
    rewrite L3, (I4 H). exact S1.
  - intro H. specialize (I3 RefSleepFd ltac:(discriminate)). cbn [get_fd] in *.
    rewrite (L4 H), I3. exact S2.
Qed.

(** X8. The status message tells how an attempt went. After
    [acquireInhibitors] the active flag is what the attempt returned; on
    success the status message is "Inhibitors active (screen saver, idle,
    sleep)."; on failure it is the error message of an acquisition of this
    attempt (the last one that failed), never a message left by an earlier
    transition. *)
Theorem attempt_reports_its_outcome (env : Env) (w : World) :
  let r := acquireInhibitors env w in
  inhibitorsActive (snd r) = fst r /\
  (fst r = true -> lastQbusError (snd r) = activeMessage) /\
  (fst r = false -> isAcquisitionError (lastQbusError (snd r)) = true).
Proof.
  intro r. subst r.
  pose proof (acquireInhibitors_message env w) as Hm. cbv zeta in Hm.
  destruct (acquireInhibitors_conclude env w) as (Hr & Ha & _).
  set (w1 := snd (acquireScreenSaverInhibitor env w)) in *.
  set (w2 := snd (acquireLogin1Inhibitor env "idle" RefIdleFd w1)) in *.
  set (w3 := snd (acquireLogin1Inhibitor env "sleep" RefSleepFd w2)) in *.
  destruct (acquireScreenSaver_handles env w) as (_ & _ & _ & _ & _ & S6).
  destruct (acquireLogin1_handles env "idle" RefIdleFd w1)
    as (_ & _ & _ & _ & _ & I6).
  destruct (acquireLogin1_handles env "sleep" RefSleepFd w2)
    as (_ & _ & _ & _ & _ & L6).
  fold w1 in S6. fold w2 in I6. fold w3 in L6.
  split; [rewrite Ha, Hr; reflexivity|].
  rewrite Hm. split; intro H; rewrite H; [reflexivity|].
  rewrite H in Hr. symmetry in Hr.
  apply andb_false_iff in Hr. destruct Hr as [Hr | Hr].
  - apply andb_false_iff in Hr. destruct Hr as [Hr | Hr].
    + apply L6. right. apply I6. right. apply S6. left. exact Hr.
    + apply L6. right. apply I6. left. exact Hr.
  - apply L6. left. exact Hr.
Qed.

(** ** Cached connections *)

Section Cached.

Variable env : Env.
Variables c1 c2 : DBusConnection.
Variable opened : list BusAction.

Lemma sessionBus_cached :
  hoare (connectionsCached c1 c2 opened) (sessionBus env)
    (fun bus w => bus = Some c1 /\ connectionsCached c1 c2 opened w).
Proof.
  intros w H. unfold sessionBus. cbv [bind gets].
  destruct H as (H1 & H2 & H3). rewrite H1. cbn. repeat split; assumption.
Qed.

Lemma systemBus_cached :
  hoare (connectionsCached c1 c2 opened) (systemBus env)
    (fun bus w => bus = Some c2 /\ connectionsCached c1 c2 opened w).
Proof.
  intros w H. unfold systemBus. cbv [bind gets].
  destruct H as (H1 & H2 & H3). rewrite H2. cbn. repeat split; assumption.
Qed.

Ltac cached_solver :=
  unfold connectionsCached; intros; cbn in *;
  rewrite ?filter_app; cbn; rewrite ?app_nil_r; assumption.

Ltac cached_tac :=
  unfold setStatusMessage, updateStatusFile, logDebug;
  repeat stable_step cached_solver.

Lemma acquireScreenSaver_cached :
  stable (connectionsCached c1 c2 opened) (acquireScreenSaverInhibitor env).
Proof.
  unfold acquireScreenSaverInhibitor.
  apply stable_bind; [cached_tac | intro].
  eapply hoare_bind; [apply sessionBus_cached|].
  intros bus w [-> H]. revert w H. apply as_stable. cached_tac.
Qed.

Lemma acquireLogin1_cached (what : string) (fdOut : FdRef) :
  stable (connectionsCached c1 c2 opened) (acquireLogin1Inhibitor env what fdOut).
Proof.
  unfold acquireLogin1Inhibitor.
  apply stable_bind; [cached_tac | intro].
  eapply hoare_bind; [apply systemBus_cached|].
  intros bus w [-> H]. revert w H. apply as_stable.
  destruct fdOut; cached_tac.
Qed.

Lemma acquireInhibitors_cached :
  stable (connectionsCached c1 c2 opened) (acquireInhibitors env).
Proof.
  unfold acquireInhibitors.
  repeat first [ apply acquireScreenSaver_cached
               | apply acquireLogin1_cached
               | cached_tac ].
Qed.

End Cached.

(** X9. Connections are opened once. When both connections are cached in
    the handles, an attempt calls [dbus_bus_get] for neither bus and leaves
    both connections in place, whether its requests succeed or fail: a
    failed request does not drop the connection it went through. *)
Theorem cached_connections_are_reused
    (env : Env) (c1 c2 : DBusConnection) (w : World) :
  sessionConnection (inhibitorHandles w) = Some c1 ->
  systemConnection (inhibitorHandles w) = Some c2 ->
  let w' := snd (acquireInhibitors env w) in
  sessionConnection (inhibitorHandles w') = Some c1 /\
  systemConnection (inhibitorHandles w') = Some c2 /\
  filter isBusGet (busTrace w') = filter isBusGet (busTrace w).
Proof.
  intros H1 H2.
  apply (acquireInhibitors_cached env c1 c2 (filter isBusGet (busTrace w)) w).
  repeat split; assumption.
Qed.

Lemma cached_connections_are_reused_witness :
  sessionConnection (inhibitorHandles partialWorld) = Some 0%nat /\
  systemConnection (inhibitorHandles partialWorld) = Some 4%nat /\
  sessionConnection
    (inhibitorHandles (snd (acquireInhibitors envNoScreenSaver partialWorld)))
  = Some 0%nat.
Proof.
  split; [reflexivity|]. split; [reflexivity|].
  exact (proj1 (cached_connections_are_reused envNoScreenSaver 0%nat 4%nat
                  partialWorld eq_refl eq_refl)).
Defined.

(** ** The process id in the status file *)

Lemma digits_string_of_uint_acc (d : Decimal.uint) (acc : positive) (seen : bool) :
  Ui.digits (Z.pos acc) seen (NilEmpty.string_of_uint d) =
  (Z.pos (Pos.of_uint_acc d acc),
   match d with Decimal.Nil => seen | _ => true end).
Proof.
  revert acc seen. induction d; intros acc seen; cbn [NilEmpty.string_of_uint
    Ui.digits Pos.of_uint_acc]; try reflexivity;
    (change (Ui.digit _) with (Some 0) || change (Ui.digit _) with (Some 1)
     || change (Ui.digit _) with (Some 2) || change (Ui.digit _) with (Some 3)
     || change (Ui.digit _) with (Some 4) || change (Ui.digit _) with (Some 5)
     || change (Ui.digit _) with (Some 6) || change (Ui.digit _) with (Some 7)
     || change (Ui.digit _) with (Some 8) || change (Ui.digit _) with (Some 9));
    cbv iota beta;
    match goal with
    | |- Ui.digits ?v true _ = (Z.pos (Pos.of_uint_acc _ ?a), _) =>
        replace v with (Z.pos a) by lia
    end;
    rewrite IHd; destruct d; reflexivity.
Qed.

Lemma digits_string_of_uint (d : Decimal.uint) (seen : bool) :
  Ui.digits 0 seen (NilEmpty.string_of_uint d) =
  (Z.of_N (Pos.of_uint d),
   match d with Decimal.Nil => seen | _ => true end).
Proof.
  revert seen. induction d; intro seen;
    cbn [NilEmpty.string_of_uint Ui.digits Pos.of_uint]; try reflexivity.
  - change (Ui.digit "0") with (Some 0). cbv iota beta.
    change (10 * 0 + 0) with 0. rewrite IHd. destruct d; reflexivity.
  - change (Ui.digit "1") with (Some 1). cbv iota beta.
    change (10 * 0 + 1) with (Z.pos 1).
    rewrite digits_string_of_uint_acc. destruct d; reflexivity.
  - change (Ui.digit "2") with (Some 2). cbv iota beta.
    change (10 * 0 + 2) with (Z.pos 2).
    rewrite digits_string_of_uint_acc. destruct d; reflexivity.
  - change (Ui.digit "3") with (Some 3). cbv iota beta.
    change (10 * 0 + 3) with (Z.pos 3).
    rewrite digits_string_of_uint_acc. destruct d; reflexivity.
  - change (Ui.digit "4") with (Some 4). cbv iota beta.
    change (10 * 0 + 4) with (Z.pos 4).
    rewrite digits_string_of_uint_acc. destruct d; reflexivity.
  - change (Ui.digit "5") with (Some 5). cbv iota beta.
    change (10 * 0 + 5) with (Z.pos 5).
    rewrite digits_string_of_uint_acc. destruct d; reflexivity.
  - change (Ui.digit "6") with (Some 6). cbv iota beta.
    change (10 * 0 + 6) with (Z.pos 6).
    rewrite digits_string_of_uint_acc. destruct d; reflexivity.
  - change (Ui.digit "7") with (Some 7). cbv iota beta.
    change (10 * 0 + 7) with (Z.pos 7).
    rewrite digits_string_of_uint_acc. destruct d; reflexivity.
  - change (Ui.digit "8") with (Some 8). cbv iota beta.
    change (10 * 0 + 8) with (Z.pos 8).
    rewrite digits_string_of_uint_acc. destruct d; reflexivity.
  - change (Ui.digit "9") with (Some 9). cbv iota beta.
    change (10 * 0 + 9) with (Z.pos 9).
    rewrite digits_string_of_uint_acc. destruct d; reflexivity.
Qed.

Lemma digits_to_uint (p : positive) :
  Ui.digits 0 false (NilEmpty.string_of_uint (Pos.to_uint p)) = (Z.pos p, true).
Proof.
  rewrite digits_string_of_uint, DecimalPos.Unsigned.of_to.
  pose proof (DecimalPos.Unsigned.to_uint_nonnil p) as H.
  destruct (Pos.to_uint p); [destruct (H eq_refl) | reflexivity ..].
Qed.

(** A string of digits has no sign and no leading space to skip. *)
Lemma strtol_unsigned (d : Decimal.uint) :
  d <> Decimal.Nil ->
  Ui.strtol (NilEmpty.string_of_uint d) =
  let '(magnitude, seen) := Ui.digits 0 false (NilEmpty.string_of_uint d) in
  if seen then Some (Z.max Ui.LONG_MIN (Z.min Ui.LONG_MAX magnitude)) else None.
Proof.
  intro H. destruct d; [destruct (H eq_refl) | reflexivity ..].
Qed.

Lemma strtol_negative (d : Decimal.uint) :
  d <> Decimal.Nil ->
  Ui.strtol (String "-" (NilEmpty.string_of_uint d)) =
  let '(magnitude, seen) := Ui.digits 0 false (NilEmpty.string_of_uint d) in
  if seen then Some (Z.max Ui.LONG_MIN (Z.min Ui.LONG_MAX (- magnitude)))
  else None.
Proof. intro H. reflexivity. Qed.

Lemma string_of_uint_nonnil (d : Decimal.uint) :
  d <> Decimal.Nil ->
  NilZero.string_of_uint d = NilEmpty.string_of_uint d.
Proof. intro H. destruct d; [destruct (H eq_refl) | reflexivity ..]. Qed.

Lemma strtol_to_string (z : Z) :
  Ui.LONG_MIN <= z <= Ui.LONG_MAX -> Ui.strtol (to_string z) = Some z.
Proof.
  intro H. unfold to_string. destruct z as [|p|p]; cbn [Z.to_int NilZero.string_of_int].
  - reflexivity.
  - pose proof (DecimalPos.Unsigned.to_uint_nonnil p) as Hn.
    rewrite string_of_uint_nonnil, strtol_unsigned, digits_to_uint by exact Hn.
    f_equal. lia.
  - pose proof (DecimalPos.Unsigned.to_uint_nonnil p) as Hn.
    rewrite string_of_uint_nonnil, strtol_negative, digits_to_uint by exact Hn.
    f_equal. lia.
Qed.

Lemma to_pid_t_in_range (z : Z) :
  - 2 ^ 31 <= z < 2 ^ 31 -> Ui.to_pid_t z = z.
Proof.
  intro H. unfold Ui.to_pid_t. rewrite Z.mod_small; lia.
Qed.

Lemma readLine_pid_value (z : Z) (info : Ui.UiStatus) :
  - 2 ^ 31 <= z < 2 ^ 31 ->
  Ui.readLine info ("pid=" ++ to_string z) = Ui.set_pid z info.
Proof.
  intro H. change ("pid=" ++ to_string z) with ("pid" ++ String "=" (to_string z)).
  rewrite readLine_field by reflexivity.
  cbn [String.eqb Ascii.eqb Bool.eqb].
  rewrite strtol_to_string, to_pid_t_in_range; [reflexivity | exact H |].
  unfold Ui.LONG_MIN, Ui.LONG_MAX. lia.
Qed.

(** X6. What the controller publishes, the window reads back. When the
    status file can be opened and the process id fits a [pid_t], the status
    that [readStatus] returns from the file that [updateStatusFile] wrote
    has the data flag set, the process id of the controller, its active
    and debug flags and, as message, the status message with newlines and
    carriage returns replaced by spaces, whatever text the message holds
    (an equals sign or the name of a field in it does no harm); an empty
    message is shown as "Status file present but empty.". *)
Theorem published_status_reads_back (env : Env) (w : World) :
  env_open_status env (clock w) = true ->
  - 2 ^ 31 <= env_pid env < 2 ^ 31 ->
  Ui.readStatus (statusFile (snd (updateStatusFile env w))) =
  Ui.mkUiStatus true (inhibitorsActive w) (debugLoggingEnabled w) (env_pid env)
    (if String.eqb (sanitizeStatusMessage (lastQbusError w)) ""
     then "Status file present but empty."
     else sanitizeStatusMessage (lastQbusError w)).
Proof.
  intros Hopen Hpid. rewrite updateStatusFile_opened by exact Hopen.
  cbn [statusFile set_statusFile].
  unfold Ui.readStatus. rewrite getlines_statusText. cbn [fold_left].
  rewrite readLine_pid_value by exact Hpid.
  rewrite readLine_active, readLine_debug, readLine_message.
  rewrite !truthy_flagDigit.
  cbn [Ui.message Ui.set_message].
  destruct (String.eqb (sanitizeStatusMessage (lastQbusError w)) "");
    reflexivity.
Qed.

Lemma published_status_reads_back_witness :
  let w := set_lastQbusError
             ("ScreenSaver.Inhibit failed: no reply" ++ nl ++ "active=1")
             (initialWorld false None) in
  env_open_status envAllOk (clock w) = true /\
  - 2 ^ 31 <= env_pid envAllOk < 2 ^ 31 /\
  Ui.readStatus (statusFile (snd (updateStatusFile envAllOk w))) =
  Ui.mkUiStatus true false false 4242
    "ScreenSaver.Inhibit failed: no reply active=1".
Proof.
  intro w.
  assert (Hpid : - 2 ^ 31 <= env_pid envAllOk < 2 ^ 31) by (cbn; lia).
  split; [reflexivity|]. split; [exact Hpid|].
  exact (published_status_reads_back envAllOk w eq_refl Hpid).
Defined.

(** ** The command line *)

Lemma parseArguments_command (args : list string) (debugRequested : bool)
    (command : string) :
  command <> "" ->
  parseArguments args debugRequested command =
  match filter (fun arg => negb (isDebugFlag arg)) args with
  | [] => Some (debugRequested || existsb isDebugFlag args, command)
  | _ :: _ => None
  end.
Proof.
  intro Hc. revert debugRequested.
  induction args as [|arg rest IH]; intro debugRequested;
    cbn [parseArguments filter existsb].
  - rewrite orb_false_r. reflexivity.
  - change (String.eqb arg "--debug") with (isDebugFlag arg).
    destruct (isDebugFlag arg); cbn [negb].
    + rewrite IH, orb_true_r. destruct (filter _ rest); reflexivity.
    + destruct (String.eqb_spec command ""); [contradiction | reflexivity].
Qed.

Lemma parseArguments_words (args : list string) (debugRequested : bool) :
  parseArguments args debugRequested "" =
  match commandWords args with
  | [] => Some (debugRequested || existsb isDebugFlag args, "")
  | [word] => Some (debugRequested || existsb isDebugFlag args, word)
  | _ :: _ :: _ => None
  end.
Proof.
  revert debugRequested. unfold commandWords.
  induction args as [|arg rest IH]; intro debugRequested;
    cbn [parseArguments filter existsb dropEmpty].
  - rewrite orb_false_r. reflexivity.
  - change (String.eqb arg "--debug") with (isDebugFlag arg).
    destruct (isDebugFlag arg) eqn:Ed; cbn [negb].
    + rewrite IH, orb_true_r. destruct (dropEmpty _) as [|? [|? ?]]; reflexivity.
    + cbn [String.eqb dropEmpty orb].
      destruct (String.eqb_spec arg "") as [-> | Hne].
      * rewrite IH. reflexivity.
      * rewrite parseArguments_command by exact Hne.
        destruct (filter _ rest); reflexivity.
Qed.

(** X10. How [main] reads its arguments. The debug flag is set when
    [--debug] occurs among the arguments, wherever and however often.
    Of the other arguments, empty ones that come first are passed over;
    the first one that is not empty is the command, and any further
    argument that is not [--debug], even an empty one, makes [main] give
    up. Without a command the command is empty, for which [main] takes
    "start". *)
Theorem arguments_are_read (args : list string) :
  parseArguments args false "" =
  match commandWords args with
  | [] => Some (existsb isDebugFlag args, "")
  | [word] => Some (existsb isDebugFlag args, word)
  | _ :: _ :: _ => None
  end.
Proof. apply parseArguments_words. Qed.

Ltac main_cases menv :=
  unfold main, commandOf;
  destruct (parseArguments _ false "") as [[debugRequested command]|];
  [ destruct (String.eqb_spec command "") as [-> | ?];
    [ cbn [String.eqb Ascii.eqb Bool.eqb negb]
    | destruct (String.eqb_spec command "stop") as [-> | ?];
      [ | destruct (String.eqb_spec command "attach") as [-> | ?];
          [ | destruct (String.eqb_spec command "start") as [-> | ?] ] ] ];
    cbn [negb];
    destruct (main_existing menv) as [existingPid|];
    destruct (Z.ltb_spec 0 (main_fork menv));
    destruct (Z.ltb_spec (main_fork menv) 0)
  | ].

(** X11. The value that [main] returns. It is 1 in three cases and 0 in
    all others: more than one command on the command line, a command
    other than start, stop and attach, and a [fork] that failed. In
    particular stopping when nothing runs returns 0. *)
Theorem main_exit_code (menv : MainEnv) (args : list string) :
  let actions := fst (main menv args) in
  let code := snd (main menv args) in
  (code = 0 \/ code = 1) /\
  (code = 1 <->
   commandOf args = None
   \/ (exists command, commandOf args = Some command /\ command <> "stop"
                       /\ command <> "attach" /\ command <> "start")
   \/ (In MainFork actions /\ main_fork menv < 0)).
Proof.
  main_cases menv; cbn; try (exfalso; lia);
    (split; [auto|]); split.
  all: try discriminate.
  all: try (intros _;
            first [ left; reflexivity
                  | right; left; eexists; repeat split;
                    first [reflexivity | assumption]
                  | right; right; split; [|lia];
                    repeat (first [left; reflexivity | right]) ]).
  all: try (intros [Hn | [(c & Hc & H1 & H2 & H3) | (Hin & Hneg)]];
            first [ reflexivity
                  | discriminate Hn
                  | congruence
                  | lia
                  | exfalso;
                    repeat (destruct Hin as [Hin|Hin]; try discriminate Hin);
                    assumption ]).
Qed.

(** X12. What [main] keeps from doing. The inhibitor loop is entered only
    in a process in which [fork] returned 0. The only signal sent is
    SIGTERM, and only to the process that [checkExistingInstance] found.
    The stop command never forks, never enters the loop and never opens
    the window. A parent whose [fork] succeeded records the pid of the
    child. And nothing but a message on standard error happens before the
    debug mode is set. *)
Theorem main_is_careful (menv : MainEnv) (args : list string) :
  let actions := fst (main menv args) in
  (In MainRunInhibitorLoop actions ->
   main_fork menv = 0 /\ In MainFork actions) /\
  (forall pid sig, In (MainKill pid sig) actions ->
     sig = SIGTERM /\ main_existing menv = Some pid) /\
  (commandOf args = Some "stop" ->
   ~ In MainFork actions /\ ~ In MainRunInhibitorLoop actions
   /\ forall pid, ~ In (MainShowUI pid) actions) /\
  (In MainFork actions -> 0 < main_fork menv ->
   In (MainWritePidFile (main_fork menv)) actions) /\
  (actions = [MainError "Too many arguments provided."]
   \/ exists debug rest, actions = MainSetDebugMode debug :: rest).
Proof.
  main_cases menv; cbn;
    (split; [|split; [|split; [|split]]]);
    try (right; eexists _, _; reflexivity);
    try (left; reflexivity);
    try (intros pid sig);
    intros;
    repeat match goal with
           | H : _ \/ _ |- _ => destruct H
           | H : False |- _ => destruct H
           | H : Some _ = Some _ |- _ => injection H as H
           | H : MainKill _ _ = MainKill _ _ |- _ => injection H as <- <-
           end;
    try discriminate; try congruence; try lia;
    try (split; [lia | intuition]; fail);
    try (split; reflexivity);
    try (repeat split; intro; intuition discriminate);
    try (intuition; fail).
Qed.

(** ** The toggle key and the controller *)

Lemma acquireBlock_inactive (env : Env) (w : World) :
  acquireRequested w = true -> inhibitorsActive w = false ->
  acquireBlock env w =
  (tt, snd ((if negb (fst (acquireInhibitors env (set_acquireRequested false w)))
             then logDebug "Acquire request failed; inhibitors remain inactive."
             else skip)
              (snd (acquireInhibitors env (set_acquireRequested false w))))).
Proof.
  intros Hr Ha. unfold acquireBlock. cbv [bind gets modify].
  rewrite Hr. cbn [inhibitorsActive set_acquireRequested]. rewrite Ha.
  cbn [negb].
  destruct (acquireInhibitors env (set_acquireRequested false w)) as [b w1].
  cbn [fst snd]. destruct b; cbn [negb].
  - reflexivity.
  - rewrite logDebug_run. reflexivity.
Qed.

Lemma toggle_iteration (env : Env) (sig : Signal) (w : World) :
  requestsTermination sig = false ->
  noRequests w ->
  pollingLoop env [mkTick [sig] [] []] w =
  (false,
   snd (releaseBlock env (snd (acquireBlock env (afterSignals [sig] w))))).
Proof.
  intros Hs (Ht & Ha & Hr).
  cbn [pollingLoop beforeLoopTest beforeAcquireTest beforeReleaseTest].
  rewrite run_bind, deliver_run. cbn [fst snd]. rewrite run_bind.
  cbn [gets fst snd]. unfold afterSignals at 1.
  cbn [terminationRequested set_terminationRequested existsb].
  rewrite Ht, Hs. cbn [orb].
  rewrite !run_bind. cbn [deliver skip ret fst snd]. reflexivity.
Qed.



(** ** Without a bus *)

Section NoBus.

Variable env : Env.
Variable reason : string.
Hypothesis unreachable :
  forall n type, env_bus_get env n type = BusGetError reason.

Ltac no_bus_exec :=
  exec_norm; repeat (first [rewrite unreachable | exec_step]; exec_norm).

Lemma acquireScreenSaver_no_bus (w : World) :
  sessionConnection (inhibitorHandles w) = None ->
  let r := acquireScreenSaverInhibitor env w in
  fst r = false /\
  inhibitorHandles (snd r) = inhibitorHandles w /\
  busTrace (snd r) = (busTrace w ++ [ActBusGet DBUS_BUS_SESSION])%list /\
  lastQbusError (snd r) = "Failed to connect to session bus: " ++ reason.
Proof.
  destruct w as [[sc yc cookie ifd sfd] dbg act t a r msg file out tr clk log].
  cbn [inhibitorHandles sessionConnection]. intros ->.
  no_bus_exec; exec_done.
Qed.

Lemma acquireLogin1_no_bus (what : string) (fdOut : FdRef) (w : World) :
  systemConnection (inhibitorHandles w) = None ->
  let r := acquireLogin1Inhibitor env what fdOut w in
  fst r = false /\
  inhibitorHandles (snd r) = inhibitorHandles w /\
  busTrace (snd r) = (busTrace w ++ [ActBusGet DBUS_BUS_SYSTEM])%list /\
  lastQbusError (snd r) = "Failed to connect to system bus: " ++ reason.
Proof.
  destruct w as [[sc yc cookie ifd sfd] dbg act t a r msg file out tr clk log].
  cbn [inhibitorHandles systemConnection]. intros ->.
  no_bus_exec; exec_done.
Qed.

Lemma acquireInhibitors_no_bus (w : World) :
  sessionConnection (inhibitorHandles w) = None ->
  systemConnection (inhibitorHandles w) = None ->
  let r := acquireInhibitors env w in
  fst r = false /\
  inhibitorsActive (snd r) = false /\
  inhibitorHandles (snd r) = inhibitorHandles w /\
  busTrace (snd r) =
    (busTrace w ++ [ActBusGet DBUS_BUS_SESSION; ActBusGet DBUS_BUS_SYSTEM;
                    ActBusGet DBUS_BUS_SYSTEM])%list /\
  lastQbusError (snd r) = "Failed to connect to system bus: " ++ reason.
Proof.
  intros Hs Hy r. subst r.
  pose proof (acquireInhibitors_message env w) as Hm. cbv zeta in Hm.
  destruct (acquireInhibitors_conclude env w) as (Hr & Ha & Hh & Ht & _).
  destruct (acquireScreenSaver_no_bus w Hs) as (S1 & S2 & S3 & _).
  set (w1 := snd (acquireScreenSaverInhibitor env w)) in *.
  assert (Hy1 : systemConnection (inhibitorHandles w1) = None)
    by (rewrite S2; exact Hy).
  destruct (acquireLogin1_no_bus "idle" RefIdleFd w1 Hy1) as (I1 & I2 & I3 & _).
  set (w2 := snd (acquireLogin1Inhibitor env "idle" RefIdleFd w1)) in *.
  assert (Hy2 : systemConnection (inhibitorHandles w2) = None)
    by (rewrite I2; exact Hy1).
  destruct (acquireLogin1_no_bus "sleep" RefSleepFd w2 Hy2)
    as (L1 & L2 & L3 & L4).
  set (w3 := snd (acquireLogin1Inhibitor env "sleep" RefSleepFd w2)) in *.
  rewrite S1 in Hr, Ha. cbn [andb] in Hr, Ha.
  rewrite Hr in Hm.
  split; [exact Hr|]. split; [exact Ha|].
  split; [rewrite Hh, L2, I2, S2; reflexivity|].
  split; [|rewrite Hm; exact L4].
  rewrite Ht, L3, I3, S3, <- !app_assoc. reflexivity.
Qed.

End NoBus.

(** X14. Without a bus there is no request. When neither bus can be
    reached (every [dbus_bus_get] fails) and no connection is cached, an
    attempt fails without sending anything: it tries the session bus once
    and the system bus twice, once for each of the idle and sleep leases,
    leaves the handles as they were and the flag false, and the status
    message is the failure to connect to the system bus, with the reason
    that libdbus gave. *)
Theorem no_bus_no_request (env : Env) (reason : string) (w : World) :
  (forall n type, env_bus_get env n type = BusGetError reason) ->
  sessionConnection (inhibitorHandles w) = None ->
  systemConnection (inhibitorHandles w) = None ->
  let r := acquireInhibitors env w in
  fst r = false /\
  inhibitorsActive (snd r) = false /\
  inhibitorHandles (snd r) = inhibitorHandles w /\
  busTrace (snd r) =
    (busTrace w ++ [ActBusGet DBUS_BUS_SESSION; ActBusGet DBUS_BUS_SYSTEM;
                    ActBusGet DBUS_BUS_SYSTEM])%list /\
  lastQbusError (snd r) = "Failed to connect to system bus: " ++ reason.
Proof.
  intros H Hs Hy. exact (acquireInhibitors_no_bus env reason H w Hs Hy).
Qed.

Lemma no_bus_no_request_witness :
  let env := mkEnv 4242 (fun _ => true)
               (fun _ _ => BusGetError "Connection refused") (fun _ => true)
               (fun _ => SSCookie 77) (fun n _ => L1UnixFd (Z.of_nat n))
               (fun _ => None) in
  (forall n type, env_bus_get env n type = BusGetError "Connection refused") /\
  lastQbusError (snd (acquireInhibitors env (initialWorld false None)))
  = "Failed to connect to system bus: Connection refused".
Proof.
  intro env. split; [intros; reflexivity|].
  exact (proj2 (proj2 (proj2 (proj2
           (no_bus_no_request env "Connection refused"
              (initialWorld false None) (fun _ _ => eq_refl)
              eq_refl eq_refl))))).
Defined.
